(** * A shallow embedding of the Lavalink voice client

    The development follows the three classes of the library:
    [LavaNode] (one WebSocket link to an audio node), [LavaPlayer]
    (the playback state of one guild) and [LavaLink] (the router that
    owns both collections).  JavaScript objects live in a store and are
    named by references, every method is a computation over that store
    which may complete normally or throw, and everything a method does
    to the outside (signals, socket traffic, timers) is recorded. *)

From stdpp Require Import base strings gmap list pretty.
From Stdlib Require Import ZArith Lia.

Local Open Scope Z_scope.
#[local] Set Warnings "-register-all".

(** ** JavaScript values *)

(** The values that travel through the library: JSON data, [undefined],
    and [Error] objects.  Numbers are the integer fragment.  An object is
    the list of its own enumerable properties in insertion order, each
    key occurring once. *)
Inductive value : Type :=
| VUndef
| VNull
| VBool (b : bool)
| VNum (z : Z)
| VStr (s : string)
| VArr (items : list value)
| VObj (fields : list (string * value))
| VError (name message : string).

Definition TypeError (message : string) : value := VError "TypeError" message.

(** [ToBoolean]. *)
Definition truthy (v : value) : bool :=
  match v with
  | VUndef | VNull => false
  | VBool b => b
  | VNum z => negb (z =? 0)
  | VStr s => negb (String.eqb s EmptyString)
  | VArr _ | VObj _ | VError _ _ => true
  end.

(** [a || b]. *)
Definition js_or (a b : value) : value := if truthy a then a else b.

(** [v === 'literal']. *)
Definition is_string (v : value) (literal : string) : bool :=
  match v with
  | VStr s => String.eqb s literal
  | _ => false
  end.

Fixpoint assoc (k : string) (fs : list (string * value)) : option value :=
  match fs with
  | [] => None
  | (k', v) :: rest => if String.eqb k' k then Some v else assoc k rest
  end.

(** [obj[k] = v] on the property list: an existing key keeps its place. *)
Fixpoint set_field (k : string) (v : value) (fs : list (string * value))
  : list (string * value) :=
  match fs with
  | [] => [(k, v)]
  | (k', v') :: rest =>
      if String.eqb k' k then (k, v) :: rest else (k', v') :: set_field k v rest
  end.

Definition index_key (i : nat) : string := pretty (Z.of_nat i).

Definition indexed {A} (l : list A) : list (string * A) :=
  imap (fun i x => (index_key i, x)) l.

Fixpoint chars (s : string) : list value :=
  match s with
  | EmptyString => []
  | String c rest => VStr (String c EmptyString) :: chars rest
  end.

(** The own enumerable properties of a value, as [Object.assign] and
    property reads see them. *)
Definition own_enumerable (v : value) : list (string * value) :=
  match v with
  | VObj fs => fs
  | VArr items => indexed items
  | VStr s => indexed (chars s)
  | _ => []
  end.

(** [Object.assign(target, source)] for an object literal [target]. *)
Definition Object_assign (target : list (string * value)) (source : value)
  : list (string * value) :=
  foldl (fun acc kv => set_field kv.1 kv.2 acc) target (own_enumerable source).

(** A property read [v.k] on a value that is neither [undefined] nor
    [null]. *)
Definition read_prop (v : value) (k : string) : value :=
  match v with
  | VError name message =>
      if String.eqb k "name" then VStr name
      else if String.eqb k "message" then VStr message
      else VUndef
  | VStr s =>
      if String.eqb k "length" then VNum (Z.of_nat (String.length s))
      else default VUndef (assoc k (own_enumerable v))
  | VArr items =>
      if String.eqb k "length" then VNum (Z.of_nat (length items))
      else default VUndef (assoc k (own_enumerable v))
  | _ => default VUndef (assoc k (own_enumerable v))
  end.

(** Template-literal conversion [`${v}`]. *)
Fixpoint ToString (v : value) : string :=
  match v with
  | VUndef => "undefined"
  | VNull => "null"
  | VBool true => "true"
  | VBool false => "false"
  | VNum z => pretty z
  | VStr s => s
  | VArr items =>
      String.concat ","
        (map (fun x => match x with
                       | VUndef | VNull => EmptyString
                       | _ => ToString x
                       end) items)
  | VObj _ => "[object Object]"
  | VError name message =>
      if String.eqb message EmptyString then name else name +:+ ": " +:+ message
  end.

(** [haystack.includes(needle)]. *)
Fixpoint includes (needle haystack : string) : bool :=
  String.prefix needle haystack ||
  match haystack with
  | EmptyString => false
  | String _ rest => includes needle rest
  end.

(** ** Completions *)

Inductive completion (A : Type) : Type :=
| Normal (a : A)
| Throw (error : value).
Arguments Normal {A} a.
Arguments Throw {A} error.

(** The platform's JSON codec.  [JSON.parse] and [JSON.stringify] belong
    to the runtime, so the library is verified against any codec. *)
Class JSON := {
  JSON_parse : string → completion value;
  JSON_stringify : value → completion string
}.

(** ** The object store *)

(** Objects are named by their position in a store. *)
Definition ref : Type := nat.

(** What can be attached to an emitter with [on].  The router attaches
    the first two to every node it creates; everything else is a
    callback of the host application, which is taken to return normally
    and not to call back into the library. *)
Inductive listener : Type :=
| ForwardError
| RouteMessage
| Observer (event : string) (id : nat).

Definition listener_event (l : listener) : string :=
  match l with
  | ForwardError => "error"
  | RouteMessage => "message"
  | Observer event _ => event
  end.

Record LavaNode : Type := mkLavaNode {
  gateway : string;
  user : value;
  shards : Z;
  password : value;
  reconnectInterval : Z;
  ws : option nat;
  ready : option bool;
  stats : value;
  node_listeners : list listener
}.

Record LavaPlayer : Type := mkLavaPlayer {
  node : option ref;
  guild : string;
  channel : string;
  player_ready : bool;
  playing : bool;
  paused : bool;
  state : value;
  track : value;
  timestamp : Z;
  player_listeners : list listener
}.

(** The host client.  A sharded gateway client exposes [connections]
    (here: the shards that have one); a discord.js client exposes [ws]. *)
Record Client : Type := mkClient {
  connections : option (list Z);
  client_ws : bool;
  client_listeners : list listener
}.

(** The voice-state payload [data.d] and the packet handed to [join]. *)
Record VoiceState : Type := mkVoiceState {
  guild_id : string;
  channel_id : string
}.

Record Packet : Type := mkPacket {
  shard : Z;
  host : string;
  op : value;
  d : VoiceState
}.

(** A pending [setTimeout] callback.  The only callback the library ever
    schedules is the reconnect closure of a node. *)
Record Timer : Type := mkTimer {
  due : Z;
  target : ref
}.

Inductive emitter : Type :=
| ENode (r : ref)
| EPlayer (r : ref)
| EClient.

(** What the library does to the outside, oldest first. *)
Inductive effect : Type :=
| Emit (source : emitter) (event : string) (args : list value)
| WsOpen (socket : nat) (url : string) (headers : list (string * value))
| WsSend (socket : nat) (payload : string)
| GatewaySend (data : Packet)
| ShardSend (shard_id : Z) (opcode : value) (payload : VoiceState).

(** One [LavaLink] instance ([client], [players], [nodes]) together with
    the objects it reaches and the runtime around it. *)
Record World : Type := mkWorld {
  client : Client;
  players : gmap string ref;
  nodes : gmap string ref;
  node_store : list LavaNode;
  player_store : list LavaPlayer;
  sockets : list ref;
  timers : list Timer;
  clock : Z;
  trace : list effect
}.

Definition with_ws (x : option nat) (n : LavaNode) : LavaNode :=
  mkLavaNode (gateway n) (user n) (shards n) (password n) (reconnectInterval n)
    x (ready n) (stats n) (node_listeners n).
Definition with_ready (x : option bool) (n : LavaNode) : LavaNode :=
  mkLavaNode (gateway n) (user n) (shards n) (password n) (reconnectInterval n)
    (ws n) x (stats n) (node_listeners n).
Definition with_stats (x : value) (n : LavaNode) : LavaNode :=
  mkLavaNode (gateway n) (user n) (shards n) (password n) (reconnectInterval n)
    (ws n) (ready n) x (node_listeners n).
Definition with_node_listeners (x : list listener) (n : LavaNode) : LavaNode :=
  mkLavaNode (gateway n) (user n) (shards n) (password n) (reconnectInterval n)
    (ws n) (ready n) (stats n) x.

Definition with_playing (x : bool) (p : LavaPlayer) : LavaPlayer :=
  mkLavaPlayer (node p) (guild p) (channel p) (player_ready p) x (paused p)
    (state p) (track p) (timestamp p) (player_listeners p).
Definition with_paused (x : bool) (p : LavaPlayer) : LavaPlayer :=
  mkLavaPlayer (node p) (guild p) (channel p) (player_ready p) (playing p) x
    (state p) (track p) (timestamp p) (player_listeners p).
Definition with_state (x : value) (p : LavaPlayer) : LavaPlayer :=
  mkLavaPlayer (node p) (guild p) (channel p) (player_ready p) (playing p)
    (paused p) x (track p) (timestamp p) (player_listeners p).
Definition with_track (x : value) (p : LavaPlayer) : LavaPlayer :=
  mkLavaPlayer (node p) (guild p) (channel p) (player_ready p) (playing p)
    (paused p) (state p) x (timestamp p) (player_listeners p).
Definition with_timestamp (x : Z) (p : LavaPlayer) : LavaPlayer :=
  mkLavaPlayer (node p) (guild p) (channel p) (player_ready p) (playing p)
    (paused p) (state p) (track p) x (player_listeners p).

Definition with_players (x : gmap string ref) (w : World) : World :=
  mkWorld (client w) x (nodes w) (node_store w) (player_store w) (sockets w)
    (timers w) (clock w) (trace w).
Definition with_nodes (x : gmap string ref) (w : World) : World :=
  mkWorld (client w) (players w) x (node_store w) (player_store w) (sockets w)
    (timers w) (clock w) (trace w).
Definition with_node_store (x : list LavaNode) (w : World) : World :=
  mkWorld (client w) (players w) (nodes w) x (player_store w) (sockets w)
    (timers w) (clock w) (trace w).
Definition with_player_store (x : list LavaPlayer) (w : World) : World :=
  mkWorld (client w) (players w) (nodes w) (node_store w) x (sockets w)
    (timers w) (clock w) (trace w).
Definition with_sockets (x : list ref) (w : World) : World :=
  mkWorld (client w) (players w) (nodes w) (node_store w) (player_store w) x
    (timers w) (clock w) (trace w).
Definition with_timers (x : list Timer) (w : World) : World :=
  mkWorld (client w) (players w) (nodes w) (node_store w) (player_store w)
    (sockets w) x (clock w) (trace w).
Definition with_clock (x : Z) (w : World) : World :=
  mkWorld (client w) (players w) (nodes w) (node_store w) (player_store w)
    (sockets w) (timers w) x (trace w).
Definition with_trace (x : list effect) (w : World) : World :=
  mkWorld (client w) (players w) (nodes w) (node_store w) (player_store w)
    (sockets w) (timers w) (clock w) x.

(** ** Computations *)

(** A method call transforms the world and completes normally or throws.
    The world reached by a call that throws keeps every assignment made
    before the throw. *)
Definition M (A : Type) : Type := World → World * completion A.

Definition ret {A} (a : A) : M A := fun w => (w, Normal a).
Definition throw {A} (error : value) : M A := fun w => (w, Throw error).
Definition bind {A B} (m : M A) (k : A → M B) : M B :=
  fun w =>
    match m w with
    | (w', Normal a) => k a w'
    | (w', Throw error) => (w', Throw error)
    end.

Declare Scope js_scope.
Delimit Scope js_scope with js.
Notation "'let*' x := m 'in' k" := (bind m (fun x => k))
  (at level 10, x name, m at level 100, k at level 200) : js_scope.
Notation "m ;; k" := (bind m (fun _ => k))
  (at level 100, k at level 200, right associativity) : js_scope.
Local Open Scope js_scope.

Definition record (e : effect) : M unit :=
  fun w => (with_trace (trace w ++ [e]) w, Normal tt).

Definition Date_now : M Z := fun w => (w, Normal (clock w)).

Definition dangling : value := VError "ReferenceError" "dangling reference".

Definition this_node (r : ref) : M LavaNode :=
  fun w =>
    match node_store w !! r with
    | Some n => (w, Normal n)
    | None => (w, Throw dangling)
    end.

(** A field assignment [this.x = v] on the node [r]. *)
Definition assign_node (r : ref) (f : LavaNode → LavaNode) : M unit :=
  fun w =>
    match node_store w !! r with
    | Some n => (with_node_store (<[r := f n]> (node_store w)) w, Normal tt)
    | None => (w, Throw dangling)
    end.

Definition this_player (r : ref) : M LavaPlayer :=
  fun w =>
    match player_store w !! r with
    | Some p => (w, Normal p)
    | None => (w, Throw dangling)
    end.

Definition assign_player (r : ref) (f : LavaPlayer → LavaPlayer) : M unit :=
  fun w =>
    match player_store w !! r with
    | Some p => (with_player_store (<[r := f p]> (player_store w)) w, Normal tt)
    | None => (w, Throw dangling)
    end.

Definition allocate_node (n : LavaNode) : M ref :=
  fun w => (with_node_store (node_store w ++ [n]) w, Normal (length (node_store w))).

Definition allocate_player (p : LavaPlayer) : M ref :=
  fun w =>
    (with_player_store (player_store w ++ [p]) w, Normal (length (player_store w))).

(** The runtime clamps a delay outside [1 .. 2^31-1] to one millisecond. *)
Definition timeout_delay (ms : Z) : Z :=
  if (1 <=? ms) && (ms <=? 2147483647) then ms else 1.

(** [setTimeout(callback, ms)] for the reconnect closure of node [r]. *)
Definition setTimeout (r : ref) (ms : Z) : M unit :=
  fun w =>
    (with_timers (timers w ++ [mkTimer (clock w + timeout_delay ms) r]) w,
     Normal tt).

(** [new WebSocket(url, {headers})], whose four handlers are bound to the
    node [owner]. *)
Definition new_WebSocket (owner : ref) (url : string)
    (headers : list (string * value)) : M nat :=
  fun w =>
    let socket := length (sockets w) in
    (with_trace (trace w ++ [WsOpen socket url headers])
       (with_sockets (sockets w ++ [owner]) w),
     Normal socket).

(** ** EventEmitter *)

(** The error thrown by [emit('error', ...)] when nobody listens: the
    argument itself if it is an [Error], a fresh one otherwise. *)
Definition unhandled (args : list value) : value :=
  match args with
  | VError name message :: _ => VError name message
  | _ => VError "Error" "Unhandled error."
  end.

Definition listening (event : string) (ls : list listener) : list listener :=
  filter (fun l => listener_event l = event) ls.

Fixpoint call_each (run : listener → M unit) (ls : list listener) : M unit :=
  match ls with
  | [] => ret tt
  | l :: rest => run l ;; call_each run rest
  end.

(** [emitter.emit(event, ...args)]: the listeners registered for [event]
    when the call starts are called in order; the result says whether
    there were any. *)
Definition emit_with (run : listener → list value → M unit)
    (source : emitter) (ls : list listener) (event : string)
    (args : list value) : M bool :=
  record (Emit source event args) ;;
  match listening event ls with
  | [] => if String.eqb event "error" then throw (unhandled args) else ret false
  | hs => call_each (fun l => run l args) hs ;; ret true
  end.

Definition run_observer (l : listener) (args : list value) : M unit := ret tt.

Definition client_emit (event : string) (args : list value) : M bool :=
  fun w => emit_with run_observer EClient (client_listeners (client w)) event args w.

Definition player_emit (r : ref) (event : string) (args : list value) : M bool :=
  let* p := this_player r in
  emit_with run_observer (EPlayer r) (player_listeners p) event args.

(** [v.k], which throws on [undefined] and [null]. *)
Definition get_prop (v : value) (k : string) : M value :=
  match v with
  | VUndef | VNull => throw (TypeError ("Cannot read property '" +:+ k +:+ "'"))
  | _ => ret (read_prop v k)
  end.

Definition opt_str (o : option string) : value :=
  match o with
  | Some s => VStr s
  | None => VUndef
  end.

(** [n || fallback] for an optional number. *)
Definition num_or (o : option Z) (fallback : Z) : Z :=
  match o with
  | Some z => if z =? 0 then fallback else z
  | None => fallback
  end.

(** ** LavaNode *)

Record LavaNodeOptions : Type := mkLavaNodeOptions {
  no_gateway : option string;
  no_user : option string;
  no_shards : option Z;
  no_password : option string;
  no_reconnectInterval : option Z
}.

Module LavaNode.
Section Methods.
Context `{JSON}.

(** [node.on(event, listener)] and [node.removeAllListeners()]. *)
Definition on (self : ref) (l : listener) : M unit :=
  assign_node self (fun n => with_node_listeners (node_listeners n ++ [l]) n).

Definition removeAllListeners (self : ref) : M unit :=
  assign_node self (with_node_listeners []).

(** The listeners the router attaches in [createNode]; [route] is the
    router's [message] method. *)
Definition run_listener (route : ref → value → M value) (self : ref)
    (l : listener) (args : list value) : M unit :=
  match l with
  | ForwardError => client_emit "error" [hd VUndef args] ;; ret tt
  | RouteMessage => route self (hd VUndef args) ;; ret tt
  | Observer _ _ => ret tt
  end.

Definition emit_with_route (route : ref → value → M value) (self : ref)
    (event : string) (args : list value) : M bool :=
  let* n := this_node self in
  emit_with (run_listener route self) (ENode self) (node_listeners n) event args.

(** [this.emit(event, ...args)] for every event but ['message']: no
    [RouteMessage] listener is registered for those. *)
Definition emit (self : ref) (event : string) (args : list value) : M bool :=
  emit_with_route (fun _ _ => ret VUndef) self event args.

Definition _connect (self : ref) : M unit :=
  let* n := this_node self in
  let* socket :=
    new_WebSocket self (gateway n)
      [("Authorization", password n);
       ("Num-Shards", VNum (shards n));
       ("User-Id", user n)] in
  assign_node self (with_ws (Some socket)).

Definition new (options : LavaNodeOptions) : M ref :=
  let* self :=
    allocate_node
      {| gateway := "ws://" +:+ ToString (opt_str (no_gateway options));
         user := opt_str (no_user options);
         shards := num_or (no_shards options) 1;
         password := opt_str (no_password options);
         reconnectInterval := num_or (no_reconnectInterval options) 10000;
         ws := None;
         ready := None;
         stats := VObj [("players", VNum 0); ("playingPlayers", VNum 0)];
         node_listeners := [] |} in
  _connect self ;;
  ret self.

Definition _ready (self : ref) : M unit :=
  assign_node self (with_ready (Some true)) ;;
  emit self "ready" [] ;;
  ret tt.

Definition _message (route : ref → value → M value) (self : ref)
    (message : string) : M value :=
  match JSON_parse message with
  | Throw error =>
      let* heard := emit self "error" [error] in
      ret (VBool heard)
  | Normal data =>
      if negb (truthy data) then ret VUndef
      else
        (if is_string (read_prop data "op") "stats"
         then assign_node self (with_stats data)
         else ret tt) ;;
        let* heard := emit_with_route route self "message" [data] in
        ret (VBool heard)
  end.

Definition _reconnect (self : ref) : M unit :=
  let* n := this_node self in
  setTimeout self (reconnectInterval n).

(** The closure handed to [setTimeout] by [_reconnect]. *)
Definition reconnect_callback (self : ref) : M unit :=
  emit self "reconnecting" [] ;;
  _connect self.

Definition _error (self : ref) (error : value) : M value :=
  let* message := get_prop error "message" in
  match message with
  | VStr text =>
      if includes "socket hang up" text then ret VUndef
      else if includes "ECONNREFUSED" text then _reconnect self ;; ret VUndef
      else
        let* heard := emit self "error" [error] in
        ret (VBool heard)
  | _ => throw (TypeError "error.message.includes is not a function")
  end.

Definition _close (self : ref) (code : Z) (reason : value) : M value :=
  assign_node self (with_ready (Some false)) ;;
  if negb (code =? 1000) then _reconnect self ;; ret VUndef
  else
    assign_node self (with_ws None) ;;
    let* heard := emit self "disconnect" [reason] in
    ret (VBool heard).

Definition send (self : ref) (data : value) : M value :=
  match JSON_stringify data with
  | Throw error =>
      let* heard := emit self "error" [error] in
      ret (VBool heard)
  | Normal payload =>
      let* n := this_node self in
      match ws n with
      | None => throw (TypeError "Cannot read property 'send' of null")
      | Some socket => record (WsSend socket payload) ;; ret VUndef
      end
  end.
End Methods.
End LavaNode.

(** ** LavaPlayer *)

Record LavaPlayerOptions : Type := mkLavaPlayerOptions {
  po_node : option ref;
  po_guild : string;
  po_channel : string
}.

Record LavaPlayerConnectData : Type := mkLavaPlayerConnectData {
  session : value;
  event : value
}.

Module LavaPlayer.
Section Methods.
Context `{JSON}.

Definition new (options : LavaPlayerOptions) : M ref :=
  let* now := Date_now in
  allocate_player
    {| node := po_node options;
       guild := po_guild options;
       channel := po_channel options;
       player_ready := false;
       playing := false;
       paused := false;
       state := VObj [];
       track := VNull;
       timestamp := now;
       player_listeners := [] |}.

Definition removeAllListeners (self : ref) : M unit :=
  assign_player self
    (fun p =>
       mkLavaPlayer (node p) (guild p) (channel p) (player_ready p) (playing p)
         (paused p) (state p) (track p) (timestamp p) []).

(** [this.node.send(data)]. *)
Definition node_send (self : ref) (data : value) : M value :=
  let* p := this_player self in
  match node p with
  | None => throw (TypeError "Cannot read property 'send' of undefined")
  | Some n => LavaNode.send n data
  end.

Definition connect (self : ref) (data : LavaPlayerConnectData) : M unit :=
  let* p := this_player self in
  node_send self
    (VObj [("op", VStr "voiceUpdate");
           ("guildId", VStr (guild p));
           ("sessionId", session data);
           ("event", event data)]) ;;
  ret tt.

Definition play (self : ref) (track : value) (options : value) : M unit :=
  assign_player self (with_track track) ;;
  let* p := this_player self in
  let payload :=
    Object_assign
      [("op", VStr "play"); ("guildId", VStr (guild p)); ("track", track)]
      options in
  node_send self (VObj payload) ;;
  assign_player self (with_playing true) ;;
  let* now := Date_now in
  assign_player self (with_timestamp now).

Definition stop (self : ref) : M unit :=
  let* p := this_player self in
  node_send self (VObj [("op", VStr "stop"); ("guildId", VStr (guild p))]) ;;
  assign_player self (with_playing false) ;;
  assign_player self (with_track VNull).

Definition pause (self : ref) (pause : value) : M unit :=
  let* p := this_player self in
  if (truthy pause && paused p) || (negb (truthy pause) && negb (paused p))
  then ret tt
  else
    node_send self
      (VObj [("op", VStr "pause"); ("guildId", VStr (guild p)); ("pause", pause)]) ;;
    assign_player self (with_paused (truthy pause)).

Definition volume (self : ref) (volume : value) : M unit :=
  let* p := this_player self in
  node_send self
    (VObj [("op", VStr "volume"); ("guildId", VStr (guild p)); ("volume", volume)]) ;;
  ret tt.

Definition seek (self : ref) (position : value) : M unit :=
  let* p := this_player self in
  node_send self
    (VObj [("op", VStr "seek"); ("guildId", VStr (guild p));
           ("position", position)]) ;;
  ret tt.

(** The method [end]; the name is reserved here. *)
Definition end_ (self : ref) (message : value) : M unit :=
  let* reason := get_prop message "reason" in
  (if negb (is_string reason "REPLACED")
   then
     assign_player self (with_playing false) ;;
     assign_player self (with_track VNull)
   else ret tt) ;;
  player_emit self "end" [message] ;;
  ret tt.

Definition exception (self : ref) (message : value) : M unit :=
  player_emit self "error" [message] ;;
  ret tt.

Definition stuck (self : ref) (message : value) : M unit :=
  stop self ;;
  player_emit self "end" [message] ;;
  ret tt.
End Methods.
End LavaPlayer.

(** ** LavaLink *)

Record LavaLinkNodeOptions : Type := mkLavaLinkNodeOptions {
  lo_gateway : option string;
  lo_shards : option Z;
  lo_user : option string;
  lo_password : option string;
  lo_host : string
}.

Record LavaLinkPlayerOptions : Type := mkLavaLinkPlayerOptions {
  so_host : string;
  so_guild : string;
  so_channel : string
}.

(** What [voiceServerUpdate] reads from the host client, by guild id. *)
Record HostVoice : Type := mkHostVoice {
  guilds : gmap string value;
  voiceSessions : gmap string value
}.

Module LavaLink.
Section Methods.
Context `{JSON}.

(** [this.players.get(key)]; the map is keyed by guild id strings. *)
Definition players_get (key : value) : M (option ref) :=
  fun w =>
    (w, Normal match key with
               | VStr g => players w !! g
               | _ => None
               end).

Definition message (node : ref) (message : value) : M value :=
  let* op := get_prop message "op" in
  if negb (truthy op) then ret VUndef
  else if is_string op "playerUpdate" then
    let* guildId := get_prop message "guildId" in
    let* found := players_get guildId in
    match found with
    | None => ret VUndef
    | Some player =>
        let* st := get_prop message "state" in
        assign_player player (with_state st) ;;
        ret VUndef
    end
  else if is_string op "event" then
    let* guildId := get_prop message "guildId" in
    let* found := players_get guildId in
    match found with
    | None => ret VUndef
    | Some player =>
        let* type := get_prop message "type" in
        if is_string type "TrackEndEvent" then
          LavaPlayer.end_ player message ;; ret VUndef
        else if is_string type "TrackExceptionEvent" then
          LavaPlayer.exception player message ;; ret VUndef
        else if is_string type "TrackStuckEvent" then
          LavaPlayer.stuck player message ;; ret VUndef
        else
          let* heard :=
            player_emit player "warn"
              [VStr ("Unexpected event type: " +:+ ToString type)] in
          ret (VBool heard)
    end
  else ret VUndef.

Definition createNode (options : LavaLinkNodeOptions) : M unit :=
  let* node :=
    LavaNode.new
      {| no_gateway := lo_gateway options;
         no_user := lo_user options;
         no_shards := lo_shards options;
         no_password := lo_password options;
         no_reconnectInterval := None |} in
  LavaNode.on node ForwardError ;;
  LavaNode.on node RouteMessage ;;
  fun w => (with_nodes (<[lo_host options := node]> (nodes w)) w, Normal tt).

Definition removeNode (host : string) : M unit :=
  fun w =>
    match nodes w !! host with
    | None => (w, Normal tt)
    | Some node =>
        (LavaNode.removeAllListeners node ;;
         fun w' => (with_nodes (delete host (nodes w')) w', Normal tt)) w
    end.

Definition spawnPlayer (data : LavaLinkPlayerOptions) : M unit :=
  fun w =>
    match players w !! so_guild data with
    | Some _ => (w, Normal tt)
    | None =>
        (let* player :=
           LavaPlayer.new
             {| po_node := nodes w !! so_host data;
                po_guild := so_guild data;
                po_channel := so_channel data |} in
         fun w' =>
           (with_players (<[so_guild data := player]> (players w')) w', Normal tt)) w
    end.

(** [this.client.connections.get(shard).send(op, d)]. *)
Definition shard_send (shard_id : Z) (opcode : value) (payload : VoiceState)
  : M unit :=
  fun w =>
    match connections (client w) with
    | Some shard_ids =>
        if bool_decide (shard_id ∈ shard_ids)
        then record (ShardSend shard_id opcode payload) w
        else (w, Throw (TypeError "Cannot read property 'send' of undefined"))
    | None => (w, Throw (TypeError "Cannot read property 'get' of undefined"))
    end.

Definition join (data : Packet) : M (option ref) :=
  fun w =>
    match players w !! guild_id (d data) with
    | Some player => (w, Normal (Some player))
    | None =>
        let sharded := bool_decide (is_Some (connections (client w))) in
        let plain := client_ws (client w) in
        ((if negb sharded && plain then
            record (GatewaySend data) ;;
            spawnPlayer
              {| so_host := host data;
                 so_guild := guild_id (d data);
                 so_channel := channel_id (d data) |}
          else ret tt) ;;
         (if sharded && negb plain then
            shard_send (shard data) (op data) (d data) ;;
            spawnPlayer
              {| so_host := host data;
                 so_guild := guild_id (d data);
                 so_channel := channel_id (d data) |}
          else ret tt) ;;
         ret None) w
    end.

(** [LavaPlayer] defines no [destroy] and inherits none, so the call
    [player.destroy()] in [leave] throws. *)
Definition destroy_missing : value := TypeError "player.destroy is not a function".

Definition leave (data : Packet) : M unit :=
fun w =>
  match players w !! guild_id (d data) with
  | None => (w, Normal tt)
  | Some player =>
      let sharded := bool_decide (is_Some (connections (client w))) in
      let plain := client_ws (client w) in
      ((if negb sharded && plain then record (GatewaySend data) else ret tt) ;;
       (if sharded && negb plain
        then shard_send (shard data) (op data) (d data)
        else ret tt) ;;
       LavaPlayer.removeAllListeners player ;;
       (throw destroy_missing : M unit) ;;
       fun w' => (with_players (delete (guild_id (d data)) (players w')) w', Normal tt)) w
  end.

(** [map.get(key)] on a map of the host client keyed by guild id. *)
Definition host_get (m : gmap string value) (key : value) : option value :=
  match key with
  | VStr g => m !! g
  | _ => None
  end.

(** [voiceServerUpdate(data)].  The host client's part is [host]: for a
    discord.js client the voice session id of its member in each guild
    ([guilds.get(id).me.voiceSessionID]), for a sharded client its
    [voiceSessions] map. *)
Definition voiceServerUpdate (host : HostVoice) (data : value) : M unit :=
fun w =>
  let sharded := bool_decide (is_Some (connections (client w))) in
  let plain := client_ws (client w) in
  ((if negb sharded && plain then
      let* guild_id := get_prop data "guild_id" in
      match host_get (guilds host) guild_id with
      | None => ret tt
      | Some voiceSessionID =>
          let* found := players_get guild_id in
          match found with
          | None => ret tt
          | Some player =>
              LavaPlayer.connect player (mkLavaPlayerConnectData voiceSessionID data)
          end
      end
    else ret tt) ;;
   (if sharded && negb plain then
      let* guild_id := get_prop data "guild_id" in
      match host_get (voiceSessions host) guild_id with
      | None => ret tt
      | Some session =>
          if negb (truthy session) then ret tt
          else
            let* found := players_get guild_id in
            match found with
            | None => ret tt
            | Some player =>
                LavaPlayer.connect player (mkLavaPlayerConnectData session data)
            end
      end
    else ret tt)) w.
End Methods.
End LavaLink.

(** ** The runtime around the library *)

Inductive ws_event : Type :=
| WsOpened
| WsMessage (frame : string)
| WsClosed (code : Z) (reason : value)
| WsFailed (error : value).

Module Runtime.
Section Loop.
Context `{JSON}.

(** Time passes. *)
Definition tick (ms : Z) : M unit :=
  fun w => (with_clock (clock w + Z.max 0 ms) w, Normal tt).

(** The [i]-th pending timer runs if it is due. *)
Definition fire (i : nat) : M unit :=
  fun w =>
    match timers w !! i with
    | Some t =>
        if due t <=? clock w
        then LavaNode.reconnect_callback (target t)
               (with_timers (delete i (timers w)) w)
        else (w, Normal tt)
    | None => (w, Normal tt)
    end.

(** A socket reports an event to the handlers bound in [_connect]. *)
Definition deliver (socket : nat) (e : ws_event) : M unit :=
  fun w =>
    match sockets w !! socket with
    | None => (w, Normal tt)
    | Some owner =>
        match e with
        | WsOpened => LavaNode._ready owner w
        | WsMessage frame =>
            (LavaNode._message LavaLink.message owner frame ;; ret tt) w
        | WsClosed code reason => (LavaNode._close owner code reason ;; ret tt) w
        | WsFailed error => (LavaNode._error owner error ;; ret tt) w
        end
    end.
End Loop.
End Runtime.

(** * Specification vocabulary and examples *)

Definition nullish (v : value) : bool :=
  match v with
  | VUndef | VNull => true
  | _ => false
  end.

(** A printer standing in for [JSON.stringify] in the examples (no string
    escaping); like the real one it refuses what it cannot serialise,
    which here is an [Error] object. *)
Definition quote : string := String (Ascii.ascii_of_nat 34) EmptyString.

Fixpoint print (v : value) : string :=
  match v with
  | VUndef => "undefined"
  | VNull => "null"
  | VBool true => "true"
  | VBool false => "false"
  | VNum z => pretty z
  | VStr s => quote +:+ s +:+ quote
  | VArr items => "[" +:+ String.concat "," (map print items) +:+ "]"
  | VObj fs =>
      "{" +:+
      String.concat ","
        (map (fun kv => quote +:+ kv.1 +:+ quote +:+ ":" +:+ print kv.2) fs) +:+
      "}"
  | VError _ _ => "{}"
  end.

(** The frames the example parser understands. *)
Definition example_frames : list (string * value) :=
  [("{stats}",
    VObj [("op", VStr "stats"); ("players", VNum 3); ("playingPlayers", VNum 1)]);
   ("{end}",
    VObj [("op", VStr "event"); ("guildId", VStr "g1");
          ("type", VStr "TrackEndEvent"); ("reason", VStr "FINISHED")]);
   ("null", VNull)].

#[local] Instance example_JSON : JSON := {|
  JSON_parse frame :=
    match assoc frame example_frames with
    | Some v => Normal v
    | None => Throw (VError "SyntaxError" "Unexpected token")
    end;
  JSON_stringify v :=
    match v with
    | VError _ _ => Throw (TypeError "Converting circular structure to JSON")
    | _ => Normal (print v)
    end
|}.

Definition run {A} (m : M A) (w : World) : World := (m w).1.

(** A router over a sharded client with shard 0 connected. *)
Definition empty_world : World :=
  mkWorld (mkClient (Some [0]) false []) ∅ ∅ [] [] [] [] 0 [].

Definition join_g1 : Packet :=
  mkPacket 0 "a" (VNum 4) (mkVoiceState "g1" "c1").

(** Node "a" is registered, guild "g1" has joined and plays TRACK1. *)
Definition playing_world : World :=
  run (LavaPlayer.play 0%nat (VStr "TRACK1") (VObj []))
    (run (LavaLink.join join_g1)
       (run (LavaLink.createNode
               (mkLavaLinkNodeOptions (Some "localhost:80") None (Some "u1")
                  (Some "pw") "a"))
          empty_world)).

(** What [end] does to a live session, with the reason that keeps the
    session untouched as a parameter. *)
Definition end_outcome (kept : string) (w : World) (self : ref)
    (p : LavaPlayer) (message : value) : World * completion unit :=
  (with_trace (trace w ++ [Emit (EPlayer self) "end" [message]])
     (if is_string (read_prop message "reason") kept then w
      else
        with_player_store
          (<[self := with_track VNull (with_playing false p)]> (player_store w)) w),
   Normal tt).

Definition playing_player : LavaPlayer :=
  mkLavaPlayer (Some 0%nat) "g1" "c1" false true false (VObj []) (VStr "TRACK1") 0 [].

(** The claim of C4 as written: [end] leaves [track] and [playing] as
    they were. *)
Definition end_leaves_unchanged (w : World) (self : ref) (message : value)
  : Prop :=
  ∀ p, player_store w !! self = Some p →
    ∃ p', player_store (run (LavaPlayer.end_ self message) w) !! self = Some p' ∧
          track p' = track p ∧ playing p' = playing p.

(** The session [self] is the object [p] and is bound to a node whose
    connection handle is the open socket [socket]. *)
Definition live (w : World) (self : ref) (p : LavaPlayer) (socket : nat) : Prop :=
  player_store w !! self = Some p ∧
  ∃ n nd, node p = Some n ∧ node_store w !! n = Some nd ∧ ws nd = Some socket.

(** [calls] consecutive calls of the same method. *)
Fixpoint repeat_call (calls : nat) (m : M unit) : M unit :=
  match calls with
  | O => ret tt
  | S rest => m ;; repeat_call rest m
  end.

Definition pause_message (p : LavaPlayer) (flag : value) : value :=
  VObj [("op", VStr "pause"); ("guildId", VStr (guild p)); ("pause", flag)].

Definition stop_message (p : LavaPlayer) : value :=
  VObj [("op", VStr "stop"); ("guildId", VStr (guild p))].

(** The fields [play] starts from before the options are laid over them. *)
Definition play_base (p : LavaPlayer) (track : value) : list (string * value) :=
  [("op", VStr "play"); ("guildId", VStr (guild p)); ("track", track)].

Definition playing_node : LavaNode :=
  mkLavaNode "ws://localhost:80" (VStr "u1") 1 (VStr "pw") 10000 (Some 0%nat) None
    (VObj [("players", VNum 0); ("playingPlayers", VNum 0)])
    [ForwardError; RouteMessage].

(** A value other than [v]. *)
Definition other_than (v : value) : value :=
  match v with
  | VNull => VUndef
  | _ => VNull
  end.

(** Options that name all three fields of the play message. *)
Definition hostile_options : value :=
  VObj [("op", VStr "stop"); ("guildId", VNull); ("track", VNull)].

(** ** Session operations *)

Inductive session_op : Type :=
| OpConnect (data : LavaPlayerConnectData)
| OpPlay (track : value) (options : value)
| OpStop
| OpPause (flag : value)
| OpVolume (level : value)
| OpSeek (position : value)
| OpEnd (message : value)
| OpException (message : value)
| OpStuck (message : value).

Definition apply_op `{JSON} (self : ref) (o : session_op) : M unit :=
  match o with
  | OpConnect data => LavaPlayer.connect self data
  | OpPlay track options => LavaPlayer.play self track options
  | OpStop => LavaPlayer.stop self
  | OpPause flag => LavaPlayer.pause self flag
  | OpVolume level => LavaPlayer.volume self level
  | OpSeek position => LavaPlayer.seek self position
  | OpEnd message => LavaPlayer.end_ self message
  | OpException message => LavaPlayer.exception self message
  | OpStuck message => LavaPlayer.stuck self message
  end.

(** The host calls one operation after the other and carries on after a
    call that throws. *)
Fixpoint run_ops `{JSON} (self : ref) (ops : list session_op) (w : World) : World :=
  match ops with
  | [] => w
  | o :: rest => run_ops self rest (run (apply_op self o) w)
  end.

(** [play(null)]: the one call that stores null as the track. *)
Definition plays_null (o : session_op) : bool :=
  match o with
  | OpPlay VNull _ => true
  | _ => false
  end.

(** [playing] is false whenever [track] is null. *)
Definition consistent (p : LavaPlayer) : Prop := track p = VNull → playing p = false.

Definition sound (self : ref) (w : World) : Prop :=
  ∃ p, player_store w !! self = Some p ∧ consistent p.

(** The claim of C9 as written, for the session [self] of [w] and the
    operations [ops]. *)
Definition invariant_after `{JSON} (w : World) (self : ref) (ops : list session_op)
  : Prop :=
  ∃ p, player_store (run_ops self ops w) !! self = Some p ∧
       (track p = VNull → playing p = false).

(** The states a session passes through inside [play] and inside [stop]
    and [end]. *)
Definition armed (self : ref) (w : World) : Prop :=
  ∃ p, player_store w !! self = Some p ∧ track p ≠ VNull.

Definition halted (self : ref) (w : World) : Prop :=
  ∃ p, player_store w !! self = Some p ∧ playing p = false.

(** [m] started in [P] ends in [Q] when it returns and leaves the session
    [self] sound when it throws. *)
Definition hoare {A} (self : ref) (P : World → Prop) (m : M A)
    (Q : A → World → Prop) : Prop :=
  ∀ w, P w →
    match m w with
    | (w', Normal a) => Q a w'
    | (w', Throw _) => sound self w'
    end.

(** [m] changes nothing but the trace, which it only extends. *)
Definition quiet {A} (m : M A) : Prop :=
  ∀ w, ∃ more, (m w).1 = with_trace (trace w ++ more) w.

(** [m] leaves the nodes alone and only extends the trace. *)
Definition gentle {A} (m : M A) : Prop :=
  ∀ w, node_store (m w).1 = node_store w ∧
       ∃ more, trace (m w).1 = trace w ++ more.

(** [P] does not look at the trace. *)
Definition traceless (P : World → Prop) : Prop := ∀ t w, P w → P (with_trace t w).

Definition g2_options : LavaPlayerOptions := mkLavaPlayerOptions (Some 0%nat) "g2" "c2".

Definition sample_ops : list session_op :=
  [OpPlay (VStr "TRACK1") (VObj []); OpPause (VBool true); OpStuck VNull;
   OpEnd (VObj [("reason", VStr "FINISHED")])].

(** Node "a" of [playing_world] after a normal close. *)
Definition closed_world : World :=
  run (LavaNode._close 0%nat 1000 (VStr "bye")) playing_world.

Definition closed_node : LavaNode := with_ws None (with_ready (Some false) playing_node).

(** The claim of C3 as written: the call returns and the world is as it
    was. *)
Definition send_is_silent `{JSON} (w : World) (self : ref) (data : value) : Prop :=
  ∃ v, LavaNode.send self data w = (w, Normal v).

Definition null_handle_error : value :=
  TypeError "Cannot read property 'send' of null".

(** ** Connection life cycle *)

(** The headers [_connect] presents to the node. *)
Definition handshake (n : LavaNode) : list (string * value) :=
  [("Authorization", password n); ("Num-Shards", VNum (shards n));
   ("User-Id", user n)].

(** The world after node [self] (the object [n] before) saw a normal
    close: not ready, handle released, one disconnect signal. *)
Definition closed_normally (w : World) (self : ref) (n : LavaNode) (reason : value)
  : World :=
  with_trace (trace w ++ [Emit (ENode self) "disconnect" [reason]])
    (with_node_store
       (<[self := with_ws None (with_ready (Some false) n)]> (node_store w)) w).

(** The world after any other close: not ready, handle kept, one more
    pending timer, nothing signalled. *)
Definition reconnect_scheduled (w : World) (self : ref) (n : LavaNode) : World :=
  with_timers
    (timers w ++ [mkTimer (clock w + timeout_delay (reconnectInterval n)) self])
    (with_node_store (<[self := with_ready (Some false) n]> (node_store w)) w).

(** The world after the [i]-th timer, set by node [self] (the object [n]
    now), has run: the timer is gone, a reconnecting signal went out and
    then a new socket was opened and became the handle. *)
Definition reopened (w : World) (i : nat) (self : ref) (n : LavaNode) : World :=
  with_node_store (<[self := with_ws (Some (length (sockets w))) n]> (node_store w))
    (with_trace
       (trace w ++
          [Emit (ENode self) "reconnecting" [];
           WsOpen (length (sockets w)) (gateway n) (handshake n)])
       (with_sockets (sockets w ++ [self])
          (with_timers (delete i (timers w)) w))).

(** Node "a" of [playing_world] after an abnormal close, and the same
    world ten seconds later, when the reconnect timer is due. *)
Definition reconnecting_world : World :=
  run (LavaNode._close 0%nat 1006 (VStr "gone")) playing_world.

Definition due_world : World := run (Runtime.tick 10000) reconnecting_world.

Definition reconnecting_node : LavaNode := with_ready (Some false) playing_node.

(** The world after [removeNode(host)] took out node [r] (the object [n]
    before): listeners detached, entry deleted. *)
Definition removed (w : World) (host : string) (r : ref) (n : LavaNode) : World :=
  with_nodes (delete host (nodes w))
    (with_node_store (<[r := with_node_listeners [] n]> (node_store w)) w).

(** The claim of C2 as written: whatever timer runs after the removal,
    no socket is opened that was not open before. *)
Definition never_reopens_after_removal (w : World) (host : string) : Prop :=
  ∀ ms i socket url headers,
    WsOpen socket url headers ∈
      trace (run (LavaLink.removeNode host ;; Runtime.tick ms ;; Runtime.fire i) w) →
    WsOpen socket url headers ∈ trace w.

(** ** Inbound frames *)

(** The claim of C8 as written, for a stats frame: no message signal
    carrying the payload appears. *)
Definition stats_not_forwarded `{JSON} (w : World) (self : ref) (frame : string)
  : Prop :=
  ∀ data,
    JSON_parse frame = Normal data →
    is_string (read_prop data "op") "stats" = true →
    Emit (ENode self) "message" [data] ∉
      trace (run (LavaNode._message LavaLink.message self frame) w).

Definition example_stats : value :=
  VObj [("op", VStr "stats"); ("players", VNum 3); ("playingPlayers", VNum 1)].

Definition example_end : value :=
  VObj [("op", VStr "event"); ("guildId", VStr "g1");
        ("type", VStr "TrackEndEvent"); ("reason", VStr "FINISHED")].

(** ** Joining *)

(** The session [spawnPlayer] creates. *)
Definition fresh_player (w : World) (data : Packet) : LavaPlayer :=
  mkLavaPlayer (nodes w !! host data) (guild_id (d data)) (channel_id (d data))
    false false false (VObj []) VNull (clock w) [].

(** The world after a first [join] for a guild that forwarded [sent]. *)
Definition joined (w : World) (data : Packet) (sent : effect) : World :=
  with_players (<[guild_id (d data) := length (player_store w)]> (players w))
    (with_player_store (player_store w ++ [fresh_player w data])
       (with_trace (trace w ++ [sent]) w)).

(** The claim of C1 as written: the call hands the payload to the
    shard's send. *)
Definition join_forwards `{JSON} (w : World) (data : Packet) : Prop :=
  ∃ more,
    trace (run (LavaLink.join data) w) =
      trace w ++ ShardSend (shard data) (op data) (d data) :: more.

(** Node "a" is registered and no guild has joined yet. *)
Definition registered_world : World :=
  run (LavaLink.createNode
         (mkLavaLinkNodeOptions (Some "localhost:80") None (Some "u1") (Some "pw") "a"))
    empty_world.

(** * Vocabulary for the further properties *)

(** The listeners [createNode] leaves on a node. *)
Definition router_listeners : list listener := [ForwardError; RouteMessage].

(** How a call ends that passed an error to the host client's error
    channel: it returns if the client listens there and throws
    otherwise. *)
Definition error_outcome (w : World) (error : value) : completion value :=
  match listening "error" (client_listeners (client w)) with
  | [] => Throw (unhandled [error])
  | _ => Normal (VBool true)
  end.

(** The world after a router-made node [self] signalled [error]. *)
Definition error_reported (w : World) (self : ref) (error : value) : World :=
  with_trace
    (trace w ++ [Emit (ENode self) "error" [error]; Emit EClient "error" [error]]) w.

(** The reconnect timer node [self] (the object [n]) sets at the clock
    of [w]. *)
Definition reconnect_timer (w : World) (self : ref) (n : LavaNode) : Timer :=
  mkTimer (clock w + timeout_delay (reconnectInterval n)) self.

(** The node object the constructor builds, before its socket opens. *)
Definition constructed (options : LavaNodeOptions) : LavaNode :=
  mkLavaNode ("ws://" +:+ ToString (opt_str (no_gateway options)))
    (opt_str (no_user options)) (num_or (no_shards options) 1)
    (opt_str (no_password options)) (num_or (no_reconnectInterval options) 10000)
    None None (VObj [("players", VNum 0); ("playingPlayers", VNum 0)]) [].

Definition voice_update (p : LavaPlayer) (data : LavaPlayerConnectData) : value :=
  VObj [("op", VStr "voiceUpdate"); ("guildId", VStr (guild p));
        ("sessionId", session data); ("event", event data)].

Definition volume_message (p : LavaPlayer) (level : value) : value :=
  VObj [("op", VStr "volume"); ("guildId", VStr (guild p)); ("volume", level)].

Definition seek_message (p : LavaPlayer) (position : value) : value :=
  VObj [("op", VStr "seek"); ("guildId", VStr (guild p)); ("position", position)].

Definition unbound_error : value :=
  TypeError "Cannot read property 'send' of undefined".

(** The options [createNode] hands to the node constructor. *)
Definition node_options (options : LavaLinkNodeOptions) : LavaNodeOptions :=
  mkLavaNodeOptions (lo_gateway options) (lo_user options) (lo_shards options)
    (lo_password options) None.

(** The node [createNode] leaves in the store. *)
Definition router_node (w : World) (options : LavaLinkNodeOptions) : LavaNode :=
  with_node_listeners router_listeners
    (with_ws (Some (length (sockets w))) (constructed (node_options options))).

(** The world after [createNode(options)]. *)
Definition created (w : World) (options : LavaLinkNodeOptions) : World :=
  with_nodes (<[lo_host options := length (node_store w)]> (nodes w))
    (with_node_store (node_store w ++ [router_node w options])
       (with_trace
          (trace w ++
             [WsOpen (length (sockets w)) (gateway (router_node w options))
                (handshake (router_node w options))])
          (with_sockets (sockets w ++ [length (node_store w)]) w))).

(** A session with its listeners detached. *)
Definition detached (p : LavaPlayer) : LavaPlayer :=
  mkLavaPlayer (node p) (guild p) (channel p) (player_ready p) (playing p)
    (paused p) (state p) (track p) (timestamp p) [].

(** The message tags the router acts on. *)
Definition routed_tag (tag : value) : bool :=
  is_string tag "playerUpdate" || is_string tag "event".

(** The event types handed to a session method. *)
Definition known_event (type : value) : bool :=
  is_string type "TrackEndEvent" || is_string type "TrackExceptionEvent" ||
  is_string type "TrackStuckEvent".

(** The world after [leave] ran into the missing [destroy]: the payload
    went to the shard and the session lost its listeners. *)
Definition left_behind (w : World) (data : Packet) (self : ref) (p : LavaPlayer)
  : World :=
  with_player_store (<[self := detached p]> (player_store w))
    (with_trace (trace w ++ [ShardSend (shard data) (op data) (d data)]) w).

Definition missing_shard_error : value :=
  TypeError "Cannot read property 'send' of undefined".

(** ** The router's bookkeeping *)

(** What the host application and the runtime can do to a router. *)
Inductive router_op : Type :=
| DoCreateNode (options : LavaLinkNodeOptions)
| DoRemoveNode (host : string)
| DoJoin (data : Packet)
| DoLeave (data : Packet)
| DoVoiceServerUpdate (host : HostVoice) (data : value)
| DoCommand (self : ref) (o : session_op)
| DoDeliver (socket : nat) (e : ws_event)
| DoTick (ms : Z)
| DoFire (i : nat).

Definition apply_router_op `{JSON} (o : router_op) : M unit :=
  match o with
  | DoCreateNode options => LavaLink.createNode options
  | DoRemoveNode host => LavaLink.removeNode host
  | DoJoin data => LavaLink.join data ;; ret tt
  | DoLeave data => LavaLink.leave data
  | DoVoiceServerUpdate host data => LavaLink.voiceServerUpdate host data
  | DoCommand self o => apply_op self o
  | DoDeliver socket e => Runtime.deliver socket e
  | DoTick ms => Runtime.tick ms
  | DoFire i => Runtime.fire i
  end.

(** One operation after the other, carrying on after one that throws. *)
Fixpoint run_router `{JSON} (ops : list router_op) (w : World) : World :=
  match ops with
  | [] => w
  | o :: rest => run_router rest (run (apply_router_op o) w)
  end.

(** The reference [r] names a node of the store. *)
Definition valid (w : World) (r : ref) : Prop := (r < length (node_store w))%nat.

(** The router's books are in order: every guild of [players] names a
    session of the store that carries this guild id, and every node
    reference held anywhere (in [nodes], in a session, by a socket, by a
    timer) names a node of the store. *)
Record in_order (w : World) : Prop := mk_in_order {
  registry_ok :
    ∀ g r, players w !! g = Some r →
           ∃ p, player_store w !! r = Some p ∧ guild p = g;
  nodes_ok : ∀ h r, nodes w !! h = Some r → valid w r;
  bound_ok : Forall (fun p => ∀ n, node p = Some n → valid w n) (player_store w);
  sockets_ok : Forall (valid w) (sockets w);
  timers_ok : Forall (fun t => valid w (target t)) (timers w)
}.

(** [m], started with the books in order and the references [rs] valid,
    leaves the books in order whether it returns or throws, keeps every
    valid reference valid, and on return the references [out] are valid
    too. *)
Definition safe {A} (rs : list ref) (m : M A) (out : A → list ref) : Prop :=
  ∀ w, in_order w → Forall (valid w) rs →
    in_order (m w).1 ∧
    (∀ r, valid w r → valid (m w).1 r) ∧
    match (m w).2 with
    | Normal a => Forall (valid (m w).1) (out a)
    | Throw _ => True
    end.

(** [f] changes neither the guild nor the node of a session. *)
Definition keeps_identity (f : LavaPlayer → LavaPlayer) : Prop :=
  ∀ p, guild (f p) = guild p ∧ node (f p) = node p.

Definition nothing {A} : A → list ref := fun _ => [].

(** ** Inputs of the further examples *)

Definition syntax_error : value := VError "SyntaxError" "Unexpected token".
Definition hang_up : value := VError "Error" "socket hang up".
Definition refused : value := VError "Error" "connect ECONNREFUSED 127.0.0.1:80".
Definition reset : value := VError "Error" "read ECONNRESET".
Definition circular : value := VError "TypeError" "cyclic object value".

Definition first_options : LavaLinkNodeOptions :=
  mkLavaLinkNodeOptions (Some "one:80") None (Some "u1") (Some "pw") "a".
Definition second_options : LavaLinkNodeOptions :=
  mkLavaLinkNodeOptions (Some "two:80") (Some 2) (Some "u1") (Some "pw") "a".

Definition state_update : value :=
  VObj [("op", VStr "playerUpdate"); ("guildId", VStr "g1");
        ("state", VObj [("position", VNum 1500)])].
Definition odd_event : value :=
  VObj [("op", VStr "event"); ("guildId", VStr "g1");
        ("type", VStr "WebSocketClosedEvent")].
Definition stranger_event : value :=
  VObj [("op", VStr "event"); ("guildId", VStr "g7");
        ("type", VStr "TrackEndEvent")].

(** A join through the unregistered host "zz". *)
Definition join_g9 : Packet := mkPacket 0 "zz" (VNum 4) (mkVoiceState "g9" "c9").
Definition orphan_world : World :=
  joined playing_world join_g9 (ShardSend (shard join_g9) (op join_g9) (d join_g9)).

(** A router whose client offers no transport. *)
Definition mute_world : World :=
  mkWorld (mkClient None false []) ∅ ∅ [] [] [] [] 0 [].

Definition voice_host : HostVoice :=
  mkHostVoice ∅ (<["g1" := VStr "session-1"]> ∅).
Definition voice_server_update : value :=
  VObj [("guild_id", VStr "g1"); ("token", VStr "t"); ("endpoint", VStr "e")].

(** * Verification *)

(** ** Stepping through computations *)

Lemma bind_normal {A B} (m : M A) (k : A → M B) w w' a :
  m w = (w', Normal a) → bind m k w = k a w'.
Proof. unfold bind. intros ->. reflexivity. Qed.

Lemma bind_throw {A B} (m : M A) (k : A → M B) w w' e :
  m w = (w', Throw e) → bind m k w = (w', Throw e).
Proof. unfold bind. intros ->. reflexivity. Qed.

Lemma this_player_some w r p :
  player_store w !! r = Some p → this_player r w = (w, Normal p).
Proof. unfold this_player. intros ->. reflexivity. Qed.

Lemma assign_player_some w r p f :
  player_store w !! r = Some p →
  assign_player r f w =
    (with_player_store (<[r := f p]> (player_store w)) w, Normal tt).
Proof. unfold assign_player. intros ->. reflexivity. Qed.

Lemma this_node_some w r n :
  node_store w !! r = Some n → this_node r w = (w, Normal n).
Proof. unfold this_node. intros ->. reflexivity. Qed.

Lemma assign_node_some w r n f :
  node_store w !! r = Some n →
  assign_node r f w = (with_node_store (<[r := f n]> (node_store w)) w, Normal tt).
Proof. unfold assign_node. intros ->. reflexivity. Qed.

Lemma get_prop_some v k w :
  nullish v = false → get_prop v k w = (w, Normal (read_prop v k)).
Proof. destruct v; simpl; intros; try discriminate; reflexivity. Qed.

Lemma store_lookup_insert {A} (l : list A) r x y :
  l !! r = Some x → <[r := y]> l !! r = Some y.
Proof. intros Hl. apply list_lookup_insert_eq. eapply lookup_lt_Some, Hl. Qed.

Lemma store_insert_insert {A} (l : list A) r x y :
  <[r := y]> (<[r := x]> l) = <[r := y]> l.
Proof.
  revert r. induction l as [|a l IH]; intros [|r]; simpl; try reflexivity.
  f_equal. apply IH.
Qed.

Lemma call_each_observers args ls w :
  call_each (fun l => run_observer l args) ls w = (w, Normal tt).
Proof.
  induction ls as [|l ls IH]; simpl; [reflexivity|].
  unfold bind, run_observer, ret. simpl. apply IH.
Qed.

(** A signal other than ['error'] sent to observers is logged and never
    throws, whoever listens. *)
Lemma emit_observers_quiet source ls event args w :
  event ≠ "error" →
  ∃ heard,
    emit_with run_observer source ls event args w =
      (with_trace (trace w ++ [Emit source event args]) w, Normal heard).
Proof.
  intros Hev. unfold emit_with, bind, record.
  destruct (listening event ls) as [|l hs] eqn:Hl.
  - destruct (String.eqb_spec event "error") as [->|_]; [done|].
    exists false. reflexivity.
  - exists true. rewrite call_each_observers. reflexivity.
Qed.

Lemma player_emit_quiet w r p event args :
  player_store w !! r = Some p → event ≠ "error" →
  ∃ heard,
    player_emit r event args w =
      (with_trace (trace w ++ [Emit (EPlayer r) event args]) w, Normal heard).
Proof.
  intros Hp Hev. unfold player_emit.
  rewrite (bind_normal _ _ _ _ _ (this_player_some _ _ _ Hp)).
  apply emit_observers_quiet, Hev.
Qed.

(** ** The player session *)

(** C4, amended: the reason that leaves [track] and [playing] alone is
    "REPLACED" in capitals; for every other reason [end] sets [playing]
    to false and [track] to null; in both cases exactly one end signal
    carrying the message is emitted. *)
Theorem end_spec (w : World) (self : ref) (p : LavaPlayer) (message : value) :
  player_store w !! self = Some p →
  nullish message = false →
  LavaPlayer.end_ self message w = end_outcome "REPLACED" w self p message.
Proof.
  intros Hp Hm. unfold LavaPlayer.end_, end_outcome.
  rewrite (bind_normal _ _ _ _ _ (get_prop_some _ _ _ Hm)).
  destruct (is_string (read_prop message "reason") "REPLACED"); simpl.
  - unfold bind at 1. unfold ret at 1.
    destruct (player_emit_quiet w self p "end" [message] Hp) as [heard Hemit];
      [done|].
    rewrite (bind_normal _ _ _ _ _ Hemit). reflexivity.
  - unfold bind at 1.
    rewrite (bind_normal _ _ _ _ _ (assign_player_some _ _ _ _ Hp)).
    erewrite assign_player_some by (simpl; eapply store_lookup_insert, Hp).
    simpl. rewrite store_insert_insert.
    match goal with |- bind _ _ ?w1 = _ =>
      destruct (player_emit_quiet w1 self (with_track VNull (with_playing false p))
                  "end" [message]) as [heard Hemit]
    end; [simpl; eapply store_lookup_insert, Hp|done|].
    rewrite (bind_normal _ _ _ _ _ Hemit). reflexivity.
Qed.

Lemma playing_world_player : player_store playing_world !! 0%nat = Some playing_player.
Proof. vm_compute. reflexivity. Qed.

Lemma end_spec_witness :
  LavaPlayer.end_ 0%nat (VObj [("reason", VStr "REPLACED")]) playing_world =
    end_outcome "REPLACED" playing_world 0%nat playing_player
      (VObj [("reason", VStr "REPLACED")]).
Proof.
  apply (end_spec playing_world 0%nat playing_player
           (VObj [("reason", VStr "REPLACED")])).
  - vm_compute. reflexivity.
  - reflexivity.
Defined.

(** C4 as written fails: the reason "replaced" in lower case clears a
    playing session like any other reason. *)
Lemma end_replaced_lowercase_clears :
  ¬ end_leaves_unchanged playing_world 0%nat (VObj [("reason", VStr "replaced")]).
Proof.
  intros Hkeep.
  destruct (Hkeep _ playing_world_player) as (p' & Hp' & Htrack & _).
  vm_compute in Hp'. injection Hp' as <-. discriminate Htrack.
Qed.

Ltac step H := rewrite (bind_normal _ _ _ _ _ H).

Section PlayerSession.
Context `{JSON}.

Lemma node_send_live w self p socket data payload :
  live w self p socket →
  JSON_stringify data = Normal payload →
  LavaPlayer.node_send self data w =
    (with_trace (trace w ++ [WsSend socket payload]) w, Normal VUndef).
Proof.
  intros (Hp & n & nd & Hn & Hnd & Hws) Hjson.
  unfold LavaPlayer.node_send. step (this_player_some _ _ _ Hp).
  rewrite Hn. unfold LavaNode.send. rewrite Hjson.
  step (this_node_some _ _ _ Hnd). rewrite Hws. reflexivity.
Qed.

Lemma live_frame w w' self p socket f :
  live w self p socket →
  node_store w' = node_store w →
  player_store w' = <[self := f p]> (player_store w) →
  node (f p) = node p →
  live w' self (f p) socket.
Proof.
  intros (Hp & n & nd & Hn & Hnd & Hws) Hns Hps Hnode. split.
  - rewrite Hps. eapply store_lookup_insert, Hp.
  - exists n, nd. rewrite Hnode, Hns. done.
Qed.

Lemma pause_same w self p flag :
  player_store w !! self = Some p →
  truthy flag = paused p →
  LavaPlayer.pause self flag w = (w, Normal tt).
Proof.
  intros Hp Heq. unfold LavaPlayer.pause. step (this_player_some _ _ _ Hp).
  rewrite Heq. destruct (paused p); reflexivity.
Qed.

Lemma pause_change w self p socket flag payload :
  live w self p socket →
  truthy flag ≠ paused p →
  JSON_stringify (pause_message p flag) = Normal payload →
  LavaPlayer.pause self flag w =
    (with_trace (trace w ++ [WsSend socket payload])
       (with_player_store (<[self := with_paused (truthy flag) p]> (player_store w)) w),
     Normal tt).
Proof.
  intros Hlive Hne Hjson. pose proof Hlive as [Hp _].
  unfold LavaPlayer.pause. step (this_player_some _ _ _ Hp).
  replace ((truthy flag && paused p) || (negb (truthy flag) && negb (paused p)))
    with false by (destruct (truthy flag), (paused p); done).
  step (node_send_live _ _ _ _ _ _ Hlive Hjson).
  erewrite assign_player_some by exact Hp. reflexivity.
Qed.

Lemma repeat_call_idle (m : M unit) w calls :
  m w = (w, Normal tt) → repeat_call calls m w = (w, Normal tt).
Proof.
  intros Hm. induction calls as [|calls IH]; simpl; [reflexivity|].
  step Hm. exact IH.
Qed.

(** C6: [pause(flag)] does nothing when the flag, read as a boolean,
    equals [paused]; otherwise it sends exactly one pause message
    carrying the flag and stores the flag in [paused]; so any number of
    consecutive [pause(true)] calls on an unpaused session send exactly
    one pause message and leave [paused] true. *)
Theorem pause_spec (w : World) (self : ref) (p : LavaPlayer) (flag : value) :
  player_store w !! self = Some p →
  (truthy flag = paused p → LavaPlayer.pause self flag w = (w, Normal tt)) ∧
  (∀ socket payload,
     truthy flag ≠ paused p →
     live w self p socket →
     JSON_stringify (pause_message p flag) = Normal payload →
     LavaPlayer.pause self flag w =
       (with_trace (trace w ++ [WsSend socket payload])
          (with_player_store
             (<[self := with_paused (truthy flag) p]> (player_store w)) w),
        Normal tt)) ∧
  (∀ socket payload calls,
     paused p = false →
     live w self p socket →
     JSON_stringify (pause_message p (VBool true)) = Normal payload →
     repeat_call (S calls) (LavaPlayer.pause self (VBool true)) w =
       (with_trace (trace w ++ [WsSend socket payload])
          (with_player_store (<[self := with_paused true p]> (player_store w)) w),
        Normal tt)).
Proof.
  intros Hp. split; [|split].
  - apply pause_same, Hp.
  - intros socket payload Hne Hlive Hjson. by apply pause_change.
  - intros socket payload calls Hoff Hlive Hjson. simpl.
    step (pause_change w self p socket (VBool true) payload Hlive
            ltac:(rewrite Hoff; done) Hjson).
    apply repeat_call_idle.
    eapply pause_same; [simpl; eapply store_lookup_insert, Hp|reflexivity].
Qed.

(** C7: on a live session [stuck(message)] sends exactly one stop
    command, clears [playing] and [track], and then emits exactly one
    end signal carrying the message it was given. *)
Theorem stuck_spec (w : World) (self : ref) (p : LavaPlayer) (socket : nat)
    (message : value) (payload : string) :
  live w self p socket →
  JSON_stringify (stop_message p) = Normal payload →
  LavaPlayer.stuck self message w =
    (with_trace
       (trace w ++ [WsSend socket payload; Emit (EPlayer self) "end" [message]])
       (with_player_store
          (<[self := with_track VNull (with_playing false p)]> (player_store w)) w),
     Normal tt).
Proof.
  intros Hlive Hjson. pose proof Hlive as [Hp _].
  unfold LavaPlayer.stuck, LavaPlayer.stop.
  unfold bind at 1. unfold bind at 1. rewrite (this_player_some _ _ _ Hp).
  step (node_send_live _ _ _ _ _ _ Hlive Hjson).
  erewrite (bind_normal (assign_player _ _)) by (apply assign_player_some, Hp).
  erewrite assign_player_some by (simpl; eapply store_lookup_insert, Hp).
  simpl. rewrite store_insert_insert.
  match goal with |- bind _ _ ?w1 = _ =>
    destruct (player_emit_quiet w1 self (with_track VNull (with_playing false p))
                "end" [message]) as [heard Hemit]
  end; [simpl; eapply store_lookup_insert, Hp|done|].
  step Hemit. unfold ret. simpl. rewrite <- app_assoc. reflexivity.
Qed.
End PlayerSession.

Lemma playing_world_node : node_store playing_world !! 0%nat = Some playing_node.
Proof. vm_compute. reflexivity. Qed.

Lemma playing_world_live : live playing_world 0%nat playing_player 0%nat.
Proof.
  split; [exact playing_world_player|].
  exists 0%nat, playing_node. split; [reflexivity|].
  split; [exact playing_world_node|reflexivity].
Qed.

Lemma pause_spec_witness :
  (LavaPlayer.pause 0%nat (VBool false) playing_world = (playing_world, Normal tt)) ∧
  (LavaPlayer.pause 0%nat (VBool true) playing_world =
     (with_trace
        (trace playing_world ++
           [WsSend 0%nat (print (pause_message playing_player (VBool true)))])
        (with_player_store
           (<[0%nat := with_paused (truthy (VBool true)) playing_player]>
              (player_store playing_world)) playing_world),
      Normal tt)) ∧
  (repeat_call 3 (LavaPlayer.pause 0%nat (VBool true)) playing_world =
     (with_trace
        (trace playing_world ++
           [WsSend 0%nat (print (pause_message playing_player (VBool true)))])
        (with_player_store
           (<[0%nat := with_paused true playing_player]>
              (player_store playing_world)) playing_world),
      Normal tt)).
Proof.
  destruct (pause_spec playing_world 0%nat playing_player (VBool false)
              playing_world_player) as (Hsame & _ & _).
  destruct (pause_spec playing_world 0%nat playing_player (VBool true)
              playing_world_player) as (_ & Hchange & Hrepeat).
  split; [|split].
  - apply Hsame. reflexivity.
  - apply Hchange; [discriminate|exact playing_world_live|reflexivity].
  - apply Hrepeat; [reflexivity|exact playing_world_live|reflexivity].
Defined.

Lemma stuck_spec_witness :
  LavaPlayer.stuck 0%nat (VObj [("type", VStr "TrackStuckEvent")]) playing_world =
    (with_trace
       (trace playing_world ++
          [WsSend 0%nat (print (stop_message playing_player));
           Emit (EPlayer 0%nat) "end" [VObj [("type", VStr "TrackStuckEvent")]]])
       (with_player_store
          (<[0%nat := with_track VNull (with_playing false playing_player)]>
             (player_store playing_world)) playing_world),
     Normal tt).
Proof.
  apply (stuck_spec playing_world 0%nat playing_player 0%nat).
  - exact playing_world_live.
  - reflexivity.
Defined.

(** ** The play message *)

Lemma assoc_set_field k k' v fs :
  assoc k (set_field k' v fs) = if String.eqb k' k then Some v else assoc k fs.
Proof.
  induction fs as [|[k0 v0] fs IH]; simpl.
  - reflexivity.
  - destruct (String.eqb_spec k0 k') as [->|Hne]; simpl.
    + destruct (String.eqb k' k); reflexivity.
    + rewrite IH. destruct (String.eqb_spec k0 k) as [->|_]; [|reflexivity].
      destruct (String.eqb_spec k' k) as [->|_]; [done|reflexivity].
  Qed.

Lemma assoc_snoc k fs k' v :
  assoc k (fs ++ [(k', v)]) =
    match assoc k fs with
    | Some x => Some x
    | None => if String.eqb k' k then Some v else None
    end.
Proof.
  induction fs as [|[k0 v0] fs IH]; simpl; [reflexivity|].
  destruct (String.eqb k0 k); [reflexivity|exact IH].
Qed.

(** [Object.assign]: a key of the source overrides the target's. *)
Lemma Object_assign_override k target source :
  assoc k (Object_assign target source) =
    match assoc k (reverse (own_enumerable source)) with
    | Some v => Some v
    | None => assoc k target
    end.
Proof.
  unfold Object_assign. generalize (own_enumerable source) as fs.
  intros fs. revert target.
  induction fs as [|[k' v] fs IH]; intros target; simpl; [reflexivity|].
  rewrite IH, reverse_cons, assoc_snoc, assoc_set_field.
  destruct (assoc k (reverse fs)); [reflexivity|].
  destruct (String.eqb k' k); reflexivity.
Qed.

Section Play.
Context `{JSON}.

(** C10: the play message is the base fields [op: "play"], [guildId],
    [track] with the fields of [options] laid over them, so options
    naming one of the three fields replace the session's own values in
    what is sent. *)
Theorem play_spec (w : World) (self : ref) (p : LavaPlayer) (socket : nat)
    (track : value) (options : value) :
  (∀ payload,
     live w self p socket →
     JSON_stringify (VObj (Object_assign (play_base p track) options))
       = Normal payload →
     LavaPlayer.play self track options w =
       (with_trace (trace w ++ [WsSend socket payload])
          (with_player_store
             (<[self := with_timestamp (clock w)
                          (with_playing true (with_track track p))]>
                (player_store w)) w),
        Normal tt)) ∧
  (∀ k, assoc k (Object_assign (play_base p track) options) =
          match assoc k (reverse (own_enumerable options)) with
          | Some v => Some v
          | None => assoc k (play_base p track)
          end) ∧
  (∃ hostile,
     assoc "op" (Object_assign (play_base p track) hostile) ≠ Some (VStr "play") ∧
     assoc "guildId" (Object_assign (play_base p track) hostile)
       ≠ Some (VStr (guild p)) ∧
     assoc "track" (Object_assign (play_base p track) hostile)
       ≠ Some track).
Proof.
  split; [|split].
  - intros payload Hlive Hjson. pose proof Hlive as [Hp _].
    unfold LavaPlayer.play.
    step (assign_player_some _ _ _ (with_track track) Hp).
    assert (Hlive1 :
      live (with_player_store
              (<[self := with_track track p]> (player_store w)) w)
        self (with_track track p) socket).
    { eapply live_frame; [exact Hlive|reflexivity|reflexivity|reflexivity]. }
    pose proof Hlive1 as [Hp1 _].
    step (this_player_some _ _ _ Hp1).
    step (node_send_live _ _ _ _ _ _ Hlive1 Hjson).
    erewrite (bind_normal (assign_player _ _))
      by (apply assign_player_some; exact Hp1).
    unfold Date_now. unfold bind at 1.
    erewrite assign_player_some by (simpl; eapply store_lookup_insert, Hp1).
    simpl. rewrite !store_insert_insert. reflexivity.
  - intros k. apply Object_assign_override.
  - exists (VObj [("op", VStr "stop"); ("guildId", VNull);
                  ("track", other_than track)]).
    rewrite !Object_assign_override. simpl.
    repeat split; try discriminate. destruct track; discriminate.
Qed.
End Play.

Lemma play_spec_witness :
  LavaPlayer.play 0%nat (VStr "TRACK2") hostile_options playing_world =
    (with_trace
       (trace playing_world ++
          [WsSend 0%nat
             (print (VObj (Object_assign (play_base playing_player (VStr "TRACK2"))
                             hostile_options)))])
       (with_player_store
          (<[0%nat := with_timestamp (clock playing_world)
                        (with_playing true (with_track (VStr "TRACK2") playing_player))]>
             (player_store playing_world)) playing_world),
     Normal tt).
Proof.
  apply (proj1 (play_spec playing_world 0%nat playing_player 0%nat (VStr "TRACK2")
                  hostile_options)).
  - exact playing_world_live.
  - reflexivity.
Defined.

(** ** Computations that only log *)

Lemma with_trace_twice t t' w : with_trace t (with_trace t' w) = with_trace t w.
Proof. reflexivity. Qed.

Lemma with_trace_same w : w = with_trace (trace w ++ []) w.
Proof. rewrite app_nil_r. destruct w; reflexivity. Qed.

Lemma quiet_ret {A} (a : A) : quiet (ret a).
Proof. intros w. exists []. simpl. apply with_trace_same. Qed.

Lemma quiet_throw {A} e : quiet (@throw A e).
Proof. intros w. exists []. simpl. apply with_trace_same. Qed.

Lemma quiet_bind {A B} (m : M A) (k : A → M B) :
  quiet m → (∀ a, quiet (k a)) → quiet (bind m k).
Proof.
  intros Hm Hk w. unfold bind. destruct (Hm w) as [t Ht].
  destruct (m w) as [w' [a|e]]; simpl in Ht; subst w'.
  - destruct (Hk a (with_trace (trace w ++ t) w)) as [t' Ht']. exists (t ++ t').
    rewrite Ht'. simpl. rewrite app_assoc. reflexivity.
  - exists t. reflexivity.
Qed.

Lemma quiet_record e : quiet (record e).
Proof. intros w. exists [e]. reflexivity. Qed.

Lemma quiet_this_node r : quiet (this_node r).
Proof.
  intros w. exists []. unfold this_node.
  destruct (node_store w !! r); simpl; apply with_trace_same.
Qed.

Lemma quiet_this_player r : quiet (this_player r).
Proof.
  intros w. exists []. unfold this_player.
  destruct (player_store w !! r); simpl; apply with_trace_same.
Qed.

Lemma quiet_get_prop v k : quiet (get_prop v k).
Proof. destruct v; simpl; first [apply quiet_ret | apply quiet_throw]. Qed.

Lemma quiet_call_each run ls :
  (∀ l, quiet (run l)) → quiet (call_each run ls).
Proof.
  intros Hrun. induction ls as [|l ls IH]; simpl.
  - apply quiet_ret.
  - apply quiet_bind; [apply Hrun|intros ?; exact IH].
Qed.

Lemma quiet_emit_with run source ls event args :
  (∀ l, quiet (run l args)) → quiet (emit_with run source ls event args).
Proof.
  intros Hrun. unfold emit_with. apply quiet_bind; [apply quiet_record|].
  intros ?. destruct (listening event ls) as [|l hs].
  - destruct (String.eqb event "error"); [apply quiet_throw|apply quiet_ret].
  - apply quiet_bind; [|intros ?; apply quiet_ret].
    apply quiet_call_each. intros l'. apply Hrun.
Qed.

Lemma quiet_client_emit event args : quiet (client_emit event args).
Proof.
  intros w. unfold client_emit.
  apply (quiet_emit_with run_observer EClient). intros l. apply quiet_ret.
Qed.

Lemma quiet_player_emit r event args : quiet (player_emit r event args).
Proof.
  unfold player_emit. apply quiet_bind; [apply quiet_this_player|].
  intros p. apply quiet_emit_with. intros l. apply quiet_ret.
Qed.

Lemma quiet_node_emit self event args : quiet (LavaNode.emit self event args).
Proof.
  unfold LavaNode.emit, LavaNode.emit_with_route.
  apply quiet_bind; [apply quiet_this_node|]. intros n.
  apply quiet_emit_with. intros [| |ev id]; simpl.
  - apply quiet_bind; [apply quiet_client_emit|intros ?; apply quiet_ret].
  - apply quiet_bind; [apply (quiet_ret VUndef)|intros ?; apply quiet_ret].
  - apply quiet_ret.
Qed.

Section Quiet.
Context `{JSON}.

Lemma quiet_send self data : quiet (LavaNode.send self data).
Proof.
  unfold LavaNode.send. destruct (JSON_stringify data) as [payload|error].
  - apply quiet_bind; [apply quiet_this_node|]. intros n.
    destruct (ws n); [|apply quiet_throw].
    apply quiet_bind; [apply quiet_record|intros ?; apply quiet_ret].
  - apply quiet_bind; [apply quiet_node_emit|intros ?; apply quiet_ret].
Qed.

Lemma quiet_node_send self data : quiet (LavaPlayer.node_send self data).
Proof.
  unfold LavaPlayer.node_send. apply quiet_bind; [apply quiet_this_player|].
  intros p. destruct (node p); [apply quiet_send|apply quiet_throw].
Qed.
End Quiet.

(** ** The session invariant *)

Lemma hoare_ret {A} self (P : World → Prop) (a : A) (Q : A → World → Prop) :
  (∀ w, P w → Q a w) → hoare self P (ret a) Q.
Proof. intros HPQ w HP. simpl. auto. Qed.

Lemma hoare_bind {A B} self P (m : M A) Q (k : A → M B) R :
  hoare self P m Q → (∀ a, hoare self (Q a) (k a) R) → hoare self P (bind m k) R.
Proof.
  intros Hm Hk w HP. unfold bind. specialize (Hm w HP).
  destruct (m w) as [w' [a|e]]; [apply Hk, Hm|exact Hm].
Qed.

Lemma hoare_quiet {A} self (P : World → Prop) (m : M A) :
  quiet m → traceless P → (∀ w, P w → sound self w) →
  hoare self P m (fun _ => P).
Proof.
  intros Hq Ht Hs w HP. destruct (Hq w) as [t Hw'].
  destruct (m w) as [w' [a|e]]; simpl in Hw'; subst w'; auto.
Qed.

Lemma hoare_assign self (P : World → Prop) f (Q : unit → World → Prop) :
  (∀ w, P w → sound self w) →
  (∀ w p, P w → player_store w !! self = Some p →
     Q tt (with_player_store (<[self := f p]> (player_store w)) w)) →
  hoare self P (assign_player self f) Q.
Proof.
  intros Hs HQ w HP. unfold assign_player.
  destruct (player_store w !! self) as [p|] eqn:Hp; auto.
Qed.

Lemma hoare_now self (P : World → Prop) : hoare self P Date_now (fun _ => P).
Proof. intros w HP. exact HP. Qed.

Lemma traceless_sound self : traceless (sound self).
Proof. intros t w Hs. exact Hs. Qed.

Lemma traceless_armed self : traceless (armed self).
Proof. intros t w Hs. exact Hs. Qed.

Lemma armed_sound self w : armed self w → sound self w.
Proof. intros (p & Hp & Ht). exists p. split; [exact Hp|]. intros Hn. done. Qed.

Lemma halted_sound self w : halted self w → sound self w.
Proof. intros (p & Hp & Ht). exists p. split; [exact Hp|]. intros _. exact Ht. Qed.

Lemma sound_refl self w : sound self w → sound self w.
Proof. auto. Qed.

(** What one assignment does to the session it is made on. *)
Lemma assigned self w p f (good : LavaPlayer → Prop) :
  player_store w !! self = Some p → good (f p) →
  ∃ p', player_store (with_player_store (<[self := f p]> (player_store w)) w)
          !! self = Some p' ∧ good p'.
Proof.
  intros Hp Hgood. exists (f p). split; [|exact Hgood].
  simpl. eapply store_lookup_insert, Hp.
Qed.

Section Invariant.
Context `{JSON}.

Ltac side :=
  first [ apply traceless_sound | apply traceless_armed
        | apply sound_refl | apply armed_sound ].

Ltac leaf :=
  lazymatch goal with
  | |- hoare _ _ Date_now _ => apply hoare_now
  | |- hoare _ _ (ret _) _ => apply hoare_ret; intros ? ?; assumption
  | |- hoare _ _ (LavaPlayer.node_send _ _) _ =>
      apply hoare_quiet; [apply quiet_node_send|side|side]
  | |- hoare _ _ (player_emit _ _ _) _ =>
      apply hoare_quiet; [apply quiet_player_emit|side|side]
  | |- hoare _ _ (get_prop _ _) _ =>
      apply hoare_quiet; [apply quiet_get_prop|side|side]
  | |- hoare _ _ (this_player _) _ =>
      apply hoare_quiet; [apply quiet_this_player|side|side]
  end.

Ltac chain :=
  repeat
    lazymatch goal with
    | |- hoare _ _ (bind (assign_player _ _) _) _ => fail
    | |- hoare _ _ (bind (if _ then _ else _) _) _ => fail
    | |- hoare _ _ (bind _ _) _ => eapply hoare_bind; [leaf|intros ?]
    | |- hoare _ _ (assign_player _ _) _ => fail
    | |- hoare _ _ (if _ then _ else _) _ => fail
    | |- hoare _ _ _ _ => leaf
    end.

(** [this.playing = false; this.track = null]. *)
Lemma clear_sound self :
  hoare self (sound self)
    (assign_player self (with_playing false) ;; assign_player self (with_track VNull))
    (fun _ => sound self).
Proof.
  eapply hoare_bind; [|intros ?].
  - apply (hoare_assign _ _ _ (fun _ => halted self)); [auto|].
    intros w p _ Hp. apply (assigned _ _ _ _ (fun q => playing q = false) Hp).
    reflexivity.
  - apply hoare_assign; [apply halted_sound|].
    intros w p (q & Hq & Hoff) Hp. apply (assigned _ _ _ _ consistent Hp).
    intros _. simpl. congruence.
Qed.

Lemma stop_sound self :
  hoare self (sound self) (LavaPlayer.stop self) (fun _ => sound self).
Proof. unfold LavaPlayer.stop. chain. apply clear_sound. Qed.

Lemma play_sound self song options :
  song ≠ VNull →
  hoare self (sound self) (LavaPlayer.play self song options)
    (fun _ => sound self).
Proof.
  intros Hsong. unfold LavaPlayer.play.
  eapply hoare_bind; [|intros ?].
  - apply (hoare_assign _ _ _ (fun _ => armed self)); [auto|].
    intros w p _ Hp. apply (assigned _ _ _ _ (fun q => track q ≠ VNull) Hp).
    exact Hsong.
  - chain.
    eapply hoare_bind; [|intros ?].
    + apply (hoare_assign _ _ _ (fun _ => armed self)); [apply armed_sound|].
      intros w p (q & Hq & Hon) Hp.
      apply (assigned _ _ _ _ (fun q => track q ≠ VNull) Hp).
      simpl. congruence.
    + chain. apply hoare_assign; [apply armed_sound|].
      intros w p (q & Hq & Hon) Hp. apply (assigned _ _ _ _ consistent Hp).
      intros Hnone. simpl in Hnone. congruence.
Qed.

Lemma pause_sound self flag :
  hoare self (sound self) (LavaPlayer.pause self flag) (fun _ => sound self).
Proof.
  unfold LavaPlayer.pause. chain.
  match goal with |- context [if ?c then _ else _] => destruct c end.
  - chain.
  - chain. apply hoare_assign; [auto|].
    intros w p (q & Hq & Hc) Hp. apply (assigned _ _ _ _ consistent Hp).
    simpl in Hp. replace p with q by congruence. exact Hc.
Qed.

Lemma end_sound self message :
  hoare self (sound self) (LavaPlayer.end_ self message) (fun _ => sound self).
Proof.
  unfold LavaPlayer.end_. chain.
  eapply hoare_bind; [|intros ?].
  - match goal with |- context [if ?c then _ else _] => destruct c end.
    + apply clear_sound.
    + chain.
  - chain.
Qed.

Lemma op_sound self o :
  plays_null o = false →
  hoare self (sound self) (apply_op self o) (fun _ => sound self).
Proof.
  intros Hplay. destruct o; simpl.
  - unfold LavaPlayer.connect. chain.
  - apply play_sound. intros ->. discriminate Hplay.
  - apply stop_sound.
  - apply pause_sound.
  - unfold LavaPlayer.volume. chain.
  - unfold LavaPlayer.seek. chain.
  - apply end_sound.
  - unfold LavaPlayer.exception. chain.
  - unfold LavaPlayer.stuck.
    eapply hoare_bind; [apply stop_sound|intros ?; chain].
Qed.

Lemma run_ops_sound self ops w :
  Forall (fun o => plays_null o = false) ops →
  sound self w → sound self (run_ops self ops w).
Proof.
  intros Hops. revert w.
  induction Hops as [|o ops Ho Hops IH]; intros w Hs; simpl; [exact Hs|].
  apply IH. unfold run. pose proof (op_sound self o Ho w Hs) as Hstep.
  destruct (apply_op self o w) as [w' [a|e]]; exact Hstep.
Qed.

(** C9, amended: from a freshly created session on, whatever operations
    are called on it and whether they return or throw, as long as no
    [play] is given null as its track, the session exists and its
    [playing] is false whenever its [track] is null. *)
Theorem playing_false_without_track (w w1 : World) (options : LavaPlayerOptions)
    (self : ref) (ops : list session_op) :
  LavaPlayer.new options w = (w1, Normal self) →
  Forall (fun o => plays_null o = false) ops →
  ∃ p, player_store (run_ops self ops w1) !! self = Some p ∧
       (track p = VNull → playing p = false).
Proof.
  intros Hnew Hops. apply run_ops_sound; [exact Hops|].
  unfold LavaPlayer.new, bind, Date_now, allocate_player in Hnew.
  injection Hnew as <- <-. eexists. split.
  - simpl. apply list_lookup_middle. reflexivity.
  - intros _. reflexivity.
Qed.
End Invariant.

Lemma playing_false_without_track_witness :
  ∃ p, player_store
         (run_ops 1%nat sample_ops (LavaPlayer.new g2_options playing_world).1)
         !! 1%nat = Some p ∧
       (track p = VNull → playing p = false).
Proof.
  apply (playing_false_without_track playing_world _ g2_options 1%nat sample_ops).
  - vm_compute. reflexivity.
  - repeat constructor.
Defined.

(** C9 as written fails: [play(null)] on a fresh session bound to an
    open connection leaves [track] null and sets [playing]. *)
Lemma play_null_sets_playing :
  ¬ invariant_after (LavaPlayer.new g2_options playing_world).1 1%nat
      [OpPlay VNull (VObj [])].
Proof.
  intros (p & Hp & Hinv). vm_compute in Hp. injection Hp as <-.
  specialize (Hinv eq_refl). discriminate Hinv.
Qed.

(** ** Sending on a released handle *)

Section Send.
Context `{JSON}.

Lemma node_send_null w session p self n data payload :
  player_store w !! session = Some p →
  node p = Some self →
  node_store w !! self = Some n →
  ws n = None →
  JSON_stringify data = Normal payload →
  LavaPlayer.node_send session data w = (w, Throw null_handle_error).
Proof.
  intros Hp Hnode Hn Hws Hjson. unfold LavaPlayer.node_send.
  step (this_player_some _ _ _ Hp). rewrite Hnode.
  unfold LavaNode.send. rewrite Hjson.
  step (this_node_some _ _ _ Hn). rewrite Hws. reflexivity.
Qed.

(** C3, amended: on a connection whose handle is null [send] sends
    nothing and changes no state, but it throws a TypeError
    synchronously for every message that serialises, and the throw
    leaves the session operation that made the call: [stop], and
    likewise [connect], [volume], [seek], [stuck], a [pause] that
    changes the flag, and [play], which has stored the track by then. *)
Theorem send_null_handle (w : World) (self : ref) (n : LavaNode) (data : value)
    (payload : string) :
  node_store w !! self = Some n →
  ws n = None →
  JSON_stringify data = Normal payload →
  LavaNode.send self data w = (w, Throw null_handle_error) ∧
  (∀ session p other,
     player_store w !! session = Some p →
     node p = Some self →
     JSON_stringify (stop_message p) = Normal other →
     LavaPlayer.stop session w = (w, Throw null_handle_error)) ∧
  (∀ session p,
     player_store w !! session = Some p →
     node p = Some self →
     (∀ update other,
        JSON_stringify (voice_update p update) = Normal other →
        LavaPlayer.connect session update w = (w, Throw null_handle_error)) ∧
     (∀ level other,
        JSON_stringify (volume_message p level) = Normal other →
        LavaPlayer.volume session level w = (w, Throw null_handle_error)) ∧
     (∀ position other,
        JSON_stringify (seek_message p position) = Normal other →
        LavaPlayer.seek session position w = (w, Throw null_handle_error)) ∧
     (∀ message other,
        JSON_stringify (stop_message p) = Normal other →
        LavaPlayer.stuck session message w = (w, Throw null_handle_error)) ∧
     (∀ flag other,
        truthy flag ≠ paused p →
        JSON_stringify (pause_message p flag) = Normal other →
        LavaPlayer.pause session flag w = (w, Throw null_handle_error)) ∧
     (∀ track options other,
        JSON_stringify (VObj (Object_assign (play_base p track) options))
          = Normal other →
        LavaPlayer.play session track options w =
          (with_player_store (<[session := with_track track p]> (player_store w)) w,
           Throw null_handle_error))).
Proof.
  intros Hn Hws Hjson.
  assert (Hsend : ∀ d s, JSON_stringify d = Normal s →
            LavaNode.send self d w = (w, Throw null_handle_error)).
  { intros d s Hd. unfold LavaNode.send. rewrite Hd.
    step (this_node_some _ _ _ Hn). rewrite Hws. reflexivity. }
  assert (Hstop : ∀ session p other,
            player_store w !! session = Some p →
            node p = Some self →
            JSON_stringify (stop_message p) = Normal other →
            LavaPlayer.stop session w = (w, Throw null_handle_error)).
  { intros session p other Hp Hnode Hother. unfold LavaPlayer.stop.
    step (this_player_some _ _ _ Hp).
    apply bind_throw. unfold LavaPlayer.node_send.
    step (this_player_some _ _ _ Hp). rewrite Hnode. eapply Hsend, Hother. }
  split; [eapply Hsend, Hjson|]. split; [exact Hstop|].
  intros session p Hp Hnode.
  split; [|split; [|split; [|split; [|split]]]].
  - intros update other Hother. unfold LavaPlayer.connect.
    step (this_player_some _ _ _ Hp). apply bind_throw.
    eapply node_send_null; eassumption.
  - intros level other Hother. unfold LavaPlayer.volume.
    step (this_player_some _ _ _ Hp). apply bind_throw.
    eapply node_send_null; eassumption.
  - intros position other Hother. unfold LavaPlayer.seek.
    step (this_player_some _ _ _ Hp). apply bind_throw.
    eapply node_send_null; eassumption.
  - intros message other Hother. unfold LavaPlayer.stuck.
    apply bind_throw. eapply Hstop; eassumption.
  - intros flag other Hne Hother. unfold LavaPlayer.pause.
    step (this_player_some _ _ _ Hp).
    replace ((truthy flag && paused p) || (negb (truthy flag) && negb (paused p)))
      with false by (destruct (truthy flag), (paused p); done).
    apply bind_throw. eapply node_send_null; eassumption.
  - intros track options other Hother. unfold LavaPlayer.play.
    step (assign_player_some _ _ _ (with_track track) Hp).
    assert (Hp1 : player_store
                    (with_player_store
                       (<[session := with_track track p]> (player_store w)) w)
                    !! session = Some (with_track track p)).
    { simpl. eapply store_lookup_insert, Hp. }
    step (this_player_some _ _ _ Hp1). apply bind_throw.
    eapply node_send_null; [exact Hp1|exact Hnode|exact Hn|exact Hws|exact Hother].
Qed.
End Send.

Lemma closed_world_node : node_store closed_world !! 0%nat = Some closed_node.
Proof. vm_compute. reflexivity. Qed.

Lemma send_null_handle_witness :
  LavaNode.send 0%nat (VObj [("op", VStr "stop")]) closed_world =
    (closed_world, Throw null_handle_error).
Proof.
  refine (proj1 (send_null_handle closed_world 0%nat closed_node
                   (VObj [("op", VStr "stop")])
                   (print (VObj [("op", VStr "stop")])) _ _ _)).
  - exact closed_world_node.
  - reflexivity.
  - reflexivity.
Defined.

(** C3 as written fails: after a normal close has released the handle,
    [send] throws instead of returning. *)
Lemma send_null_handle_throws :
  ¬ send_is_silent closed_world 0%nat (VObj [("op", VStr "stop")]).
Proof.
  intros [v Hv]. vm_compute in Hv. discriminate Hv.
Qed.

(** ** Node signals *)

Lemma call_each_plain route self args event hs w :
  (∀ l, l ∈ hs → listener_event l = event) →
  event ≠ "error" → event ≠ "message" →
  call_each (fun l => LavaNode.run_listener route self l args) hs w = (w, Normal tt).
Proof.
  intros Hall Herr Hmsg. induction hs as [|l hs IH]; simpl; [reflexivity|].
  assert (Hl : listener_event l = event) by (apply Hall; left).
  assert (Hrun : LavaNode.run_listener route self l args w = (w, Normal tt)).
  { destruct l as [| |ev id]; simpl in Hl; [congruence|congruence|reflexivity]. }
  step Hrun. apply IH. intros l' Hin. apply Hall. right. exact Hin.
Qed.

(** A node signal other than ['error'] and ['message'] is logged, reaches
    only observers and never throws. *)
Lemma node_emit_plain w self n event args :
  node_store w !! self = Some n →
  event ≠ "error" → event ≠ "message" →
  ∃ heard,
    LavaNode.emit self event args w =
      (with_trace (trace w ++ [Emit (ENode self) event args]) w, Normal heard).
Proof.
  intros Hn Herr Hmsg. unfold LavaNode.emit, LavaNode.emit_with_route.
  step (this_node_some _ _ _ Hn). unfold emit_with, bind at 1, record.
  destruct (listening event (node_listeners n)) as [|l hs] eqn:Hl.
  - destruct (String.eqb_spec event "error") as [->|_]; [done|].
    exists false. reflexivity.
  - exists true. erewrite bind_normal; [reflexivity|].
    apply call_each_plain with (event := event); [|exact Herr|exact Hmsg].
    intros l' Hin. rewrite <- Hl in Hin. unfold listening in Hin.
    apply list_elem_of_filter in Hin. tauto.
Qed.

Lemma connect_opens w self n :
  node_store w !! self = Some n →
  LavaNode._connect self w =
    (with_node_store (<[self := with_ws (Some (length (sockets w))) n]> (node_store w))
       (with_trace (trace w ++ [WsOpen (length (sockets w)) (gateway n) (handshake n)])
          (with_sockets (sockets w ++ [self]) w)),
     Normal tt).
Proof.
  intros Hn. unfold LavaNode._connect. step (this_node_some _ _ _ Hn).
  unfold new_WebSocket, bind at 1. erewrite assign_node_some by exact Hn.
  reflexivity.
Qed.

Section Timers.
Context `{JSON}.

Lemma fire_due w i t n :
  timers w !! i = Some t → due t ≤ clock w →
  node_store w !! target t = Some n →
  Runtime.fire i w = (reopened w i (target t) n, Normal tt).
Proof.
  intros Ht Hdue Hn. unfold Runtime.fire. rewrite Ht.
  destruct (Z.leb_spec (due t) (clock w)) as [_|Hlt]; [|lia].
  unfold LavaNode.reconnect_callback.
  match goal with |- bind _ _ ?w1 = _ =>
    destruct (node_emit_plain w1 (target t) n "reconnecting" [] Hn)
      as [heard Hemit]; [done|done|]
  end.
  step Hemit. erewrite connect_opens by exact Hn.
  unfold reopened. simpl. rewrite <- app_assoc. reflexivity.
Qed.

Lemma fire_early w i t :
  timers w !! i = Some t → clock w < due t → Runtime.fire i w = (w, Normal tt).
Proof.
  intros Ht Hlt. unfold Runtime.fire. rewrite Ht.
  destruct (Z.leb_spec (due t) (clock w)) as [Hle|_]; [lia|reflexivity].
Qed.

Lemma close_normal w self n reason :
  node_store w !! self = Some n →
  ∃ heard,
    LavaNode._close self 1000 reason w =
      (closed_normally w self n reason, Normal (VBool heard)).
Proof.
  intros Hn. unfold LavaNode._close.
  step (assign_node_some _ _ _ (with_ready (Some false)) Hn). simpl.
  erewrite (bind_normal (assign_node _ _))
    by (apply assign_node_some; simpl; eapply store_lookup_insert, Hn).
  simpl. rewrite store_insert_insert.
  match goal with |- context [bind _ _ ?w1] =>
    destruct (node_emit_plain w1 self (with_ws None (with_ready (Some false) n))
                "disconnect" [reason]) as [heard Hemit]
  end; [simpl; eapply store_lookup_insert, Hn|done|done|].
  exists heard. step Hemit. reflexivity.
Qed.

Lemma close_abnormal w self n code reason :
  node_store w !! self = Some n → code ≠ 1000 →
  LavaNode._close self code reason w = (reconnect_scheduled w self n, Normal VUndef).
Proof.
  intros Hn Hcode. unfold LavaNode._close.
  step (assign_node_some _ _ _ (with_ready (Some false)) Hn).
  destruct (Z.eqb_spec code 1000) as [?|_]; [done|]. simpl.
  unfold LavaNode._reconnect.
  erewrite (bind_normal (bind _ _)); [reflexivity|].
  erewrite (bind_normal (this_node _))
    by (apply this_node_some; simpl; eapply store_lookup_insert, Hn).
  reflexivity.
Qed.
End Timers.

Lemma delete_last {A} (l : list A) (x : A) : delete (length l) (l ++ [x]) = l.
Proof. induction l as [|a l IH]; simpl; [reflexivity|]. f_equal. exact IH. Qed.

Lemma timeout_delay_positive ms : 1 ≤ timeout_delay ms.
Proof.
  unfold timeout_delay. destruct (Z.leb_spec 1 ms); simpl; [|lia].
  destruct (Z.leb_spec ms 2147483647); lia.
Qed.

Section Close.
Context `{JSON}.

(** C5: a close with code 1000 clears readiness, releases the handle,
    emits one disconnect signal and schedules nothing; a close with any
    other code schedules exactly one timer, due after the configured
    interval (10000 ms unless configured), which does nothing before
    it is due and, once due, emits a reconnecting signal and then
    re-opens the connection, leaving no timer behind. *)
Theorem close_spec (w : World) (self : ref) (n : LavaNode) (reason : value) :
  node_store w !! self = Some n →
  (∃ heard,
     LavaNode._close self 1000 reason w =
       (closed_normally w self n reason, Normal (VBool heard))) ∧
  timers (closed_normally w self n reason) = timers w ∧
  (timers w = [] →
   ∀ i, Runtime.fire i (closed_normally w self n reason) =
          (closed_normally w self n reason, Normal tt)) ∧
  (∀ code, code ≠ 1000 →
     let scheduled := reconnect_scheduled w self n in
     let i := length (timers w) in
     LavaNode._close self code reason w = (scheduled, Normal VUndef) ∧
     (∀ ms, ms < timeout_delay (reconnectInterval n) →
        (Runtime.tick ms ;; Runtime.fire i) scheduled =
          (run (Runtime.tick ms) scheduled, Normal tt)) ∧
     (∀ ms, timeout_delay (reconnectInterval n) ≤ ms →
        (Runtime.tick ms ;; Runtime.fire i) scheduled =
          (reopened (run (Runtime.tick ms) scheduled) i self
             (with_ready (Some false) n),
           Normal tt) ∧
        timers (reopened (run (Runtime.tick ms) scheduled) i self
                  (with_ready (Some false) n)) = timers w)) ∧
  (∀ options w0,
     no_reconnectInterval options = None →
     ∃ n0, node_store (run (LavaNode.new options) w0) !! length (node_store w0)
             = Some n0 ∧
           reconnectInterval n0 = 10000 ∧
           timeout_delay (reconnectInterval n0) = 10000).
Proof.
  intros Hn. split; [apply close_normal, Hn|].
  split; [reflexivity|]. split.
  { intros Hnone i. unfold Runtime.fire. simpl. rewrite Hnone.
    rewrite lookup_nil. reflexivity. }
  split.
  - intros code Hcode scheduled i.
    assert (Ht : timers scheduled !! i =
              Some (mkTimer (clock w + timeout_delay (reconnectInterval n)) self)).
    { simpl. apply list_lookup_middle. reflexivity. }
    pose proof (timeout_delay_positive (reconnectInterval n)) as Hpos.
    split; [apply close_abnormal; assumption|]. split.
    + intros ms Hms. unfold bind, Runtime.tick, run. simpl.
      eapply fire_early; [exact Ht|]. simpl. lia.
    + intros ms Hms. split.
      * unfold bind, Runtime.tick, run. simpl.
        apply (fire_due _ i
                 (mkTimer (clock w + timeout_delay (reconnectInterval n)) self)
                 (with_ready (Some false) n)); [exact Ht|simpl; lia|].
        simpl. eapply store_lookup_insert, Hn.
      * simpl. apply delete_last.
  - intros options w0 Hnone.
    unfold run, LavaNode.new, bind at 1, allocate_node. rewrite Hnone.
    erewrite (bind_normal (LavaNode._connect _));
      [|apply connect_opens; simpl; apply list_lookup_middle; reflexivity].
    simpl. eexists. split.
    + rewrite <- (Nat.add_0_r (length (node_store w0))) at 2.
      rewrite insert_app_r. simpl. apply list_lookup_middle. reflexivity.
    + split; reflexivity.
Qed.
End Close.

Lemma close_spec_witness :
  let scheduled := reconnect_scheduled playing_world 0%nat playing_node in
  let i := length (timers playing_world) in
  LavaNode._close 0%nat 1006 (VStr "gone") playing_world = (scheduled, Normal VUndef) ∧
  (Runtime.tick 9999 ;; Runtime.fire i) scheduled =
    (run (Runtime.tick 9999) scheduled, Normal tt) ∧
  (Runtime.tick 10000 ;; Runtime.fire i) scheduled =
    (reopened (run (Runtime.tick 10000) scheduled) i 0%nat
       (with_ready (Some false) playing_node),
     Normal tt) ∧
  (∀ j, Runtime.fire j (closed_normally playing_world 0%nat playing_node (VStr "bye")) =
          (closed_normally playing_world 0%nat playing_node (VStr "bye"), Normal tt)).
Proof.
  pose proof (close_spec playing_world 0%nat playing_node (VStr "gone")
                playing_world_node) as (_ & _ & _ & Hother & _).
  pose proof (close_spec playing_world 0%nat playing_node (VStr "bye")
                playing_world_node) as (_ & _ & Hquiet & _).
  destruct (Hother 1006 ltac:(discriminate)) as (Hclose & Hearly & Hdue).
  split; [exact Hclose|]. split; [apply Hearly; reflexivity|].
  split; [apply Hdue; discriminate|].
  apply Hquiet. vm_compute. reflexivity.
Defined.

(** ** Removing a node *)

(** C2, amended: [removeNode(host)] detaches every listener of the node
    and deletes its entry, and does nothing for an unknown host; it
    leaves the pending timers as they are, so a reconnect timer set
    before the removal still runs when due and re-opens the connection. *)
Theorem removeNode_spec (w : World) (host : string) :
  (nodes w !! host = None → LavaLink.removeNode host w = (w, Normal tt)) ∧
  (∀ r n,
     nodes w !! host = Some r →
     node_store w !! r = Some n →
     LavaLink.removeNode host w = (removed w host r n, Normal tt) ∧
     timers (removed w host r n) = timers w ∧
     (∀ i t,
        timers w !! i = Some t → target t = r → due t ≤ clock w →
        Runtime.fire i (removed w host r n) =
          (reopened (removed w host r n) i r (with_node_listeners [] n), Normal tt))).
Proof.
  split.
  - intros Hnone. unfold LavaLink.removeNode. rewrite Hnone. reflexivity.
  - intros r n Hr Hn. split; [|split].
    + unfold LavaLink.removeNode, LavaNode.removeAllListeners. rewrite Hr.
      step (assign_node_some _ _ _ (with_node_listeners []) Hn). reflexivity.
    + reflexivity.
    + intros i t Ht <- Hdue.
      apply (fire_due (removed w host (target t) n) i t (with_node_listeners [] n));
        [exact Ht|exact Hdue|].
      simpl. eapply store_lookup_insert, Hn.
Qed.

Lemma due_world_node : node_store due_world !! 0%nat = Some reconnecting_node.
Proof. vm_compute. reflexivity. Qed.

Lemma removeNode_spec_witness :
  LavaLink.removeNode "b" due_world = (due_world, Normal tt) ∧
  LavaLink.removeNode "a" due_world =
    (removed due_world "a" 0%nat reconnecting_node, Normal tt) ∧
  Runtime.fire 0%nat (removed due_world "a" 0%nat reconnecting_node) =
    (reopened (removed due_world "a" 0%nat reconnecting_node) 0%nat 0%nat
       (with_node_listeners [] reconnecting_node),
     Normal tt).
Proof.
  split.
  - apply (proj1 (removeNode_spec due_world "b")). vm_compute. reflexivity.
  - destruct (proj2 (removeNode_spec due_world "a") 0%nat reconnecting_node)
      as (Hremove & _ & Hfire).
    + vm_compute. reflexivity.
    + exact due_world_node.
    + split; [exact Hremove|].
      apply (Hfire 0%nat (mkTimer 10000 0%nat)).
      * vm_compute. reflexivity.
      * reflexivity.
      * vm_compute. discriminate.
Defined.

(** C2 as written fails: the timer set by an abnormal close survives
    the removal of its node and opens a second socket when it runs. *)
Lemma removed_node_reopens : ¬ never_reopens_after_removal reconnecting_world "a".
Proof.
  intros Hnever.
  specialize (Hnever 10000 0%nat 1%nat "ws://localhost:80"
                (handshake playing_node)).
  vm_compute in Hnever.
  assert (Hin : In (WsOpen 1 "ws://localhost:80" (handshake playing_node))
                  (trace reconnecting_world)).
  { apply list_elem_of_In. vm_compute. apply Hnever.
    do 4 right. left. }
  vm_compute in Hin. intuition discriminate.
Qed.

(** ** Computations that leave the nodes alone *)

Lemma quiet_gentle {A} (m : M A) : quiet m → gentle m.
Proof.
  intros Hq w. destruct (Hq w) as [more Hw]. rewrite Hw. split; [reflexivity|].
  exists more. reflexivity.
Qed.

Lemma gentle_bind {A B} (m : M A) (k : A → M B) :
  gentle m → (∀ a, gentle (k a)) → gentle (bind m k).
Proof.
  intros Hm Hk w. unfold bind. destruct (Hm w) as [Hn [more Ht]].
  destruct (m w) as [w' [a|e]]; simpl in *.
  - destruct (Hk a w') as [Hn' [more' Ht']]. split; [congruence|].
    exists (more ++ more'). rewrite Ht', Ht, app_assoc. reflexivity.
  - split; [exact Hn|]. exists more. exact Ht.
Qed.

Lemma gentle_assign_player r f : gentle (assign_player r f).
Proof.
  intros w. unfold assign_player.
  destruct (player_store w !! r); simpl; (split; [reflexivity|]);
    exists []; rewrite app_nil_r; reflexivity.
Qed.

Lemma gentle_players_get key : gentle (LavaLink.players_get key).
Proof.
  intros w. simpl. split; [reflexivity|]. exists []. rewrite app_nil_r. reflexivity.
Qed.

Lemma gentle_call_each run ls :
  (∀ l, gentle (run l)) → gentle (call_each run ls).
Proof.
  intros Hrun. induction ls as [|l ls IH]; simpl.
  - apply quiet_gentle, quiet_ret.
  - apply gentle_bind; [apply Hrun|intros ?; exact IH].
Qed.

Section Gentle.
Context `{JSON}.

Ltac gentle_step :=
  lazymatch goal with
  | |- gentle (bind _ _) => apply gentle_bind; [|intros ?]
  | |- gentle (if ?c then _ else _) => destruct c
  | |- gentle (match ?o with Some _ => _ | None => _ end) => destruct o
  | |- gentle (assign_player _ _) => apply gentle_assign_player
  | |- gentle (LavaLink.players_get _) => apply gentle_players_get
  | |- gentle (ret _) => apply quiet_gentle, quiet_ret
  | |- gentle (get_prop _ _) => apply quiet_gentle, quiet_get_prop
  | |- gentle (this_player _) => apply quiet_gentle, quiet_this_player
  | |- gentle (player_emit _ _ _) => apply quiet_gentle, quiet_player_emit
  | |- gentle (LavaPlayer.node_send _ _) => apply quiet_gentle, quiet_node_send
  end.

Lemma gentle_stop self : gentle (LavaPlayer.stop self).
Proof. unfold LavaPlayer.stop. repeat gentle_step. Qed.

Lemma gentle_message node message : gentle (LavaLink.message node message).
Proof.
  unfold LavaLink.message, LavaPlayer.end_, LavaPlayer.exception,
    LavaPlayer.stuck.
  repeat first [ apply gentle_stop | gentle_step ].
Qed.

Lemma gentle_run_listener self l args :
  gentle (LavaNode.run_listener LavaLink.message self l args).
Proof.
  destruct l as [| |ev id]; simpl.
  - apply quiet_gentle, quiet_bind; [apply quiet_client_emit|].
    intros ?. apply quiet_ret.
  - apply gentle_bind; [apply gentle_message|].
    intros ?. apply quiet_gentle, quiet_ret.
  - apply quiet_gentle, quiet_ret.
Qed.

(** The router ignores a payload tagged "stats". *)
Lemma message_ignores_stats node data w :
  is_string (read_prop data "op") "stats" = true →
  LavaLink.message node data w = (w, Normal VUndef).
Proof.
  intros Hop. unfold LavaLink.message.
  assert (Hnn : nullish data = false).
  { destruct data; try reflexivity; simpl in Hop; discriminate Hop. }
  step (get_prop_some data "op" w Hnn).
  destruct (read_prop data "op") as [| | | |s| | |]; try discriminate Hop.
  simpl in Hop. apply String.eqb_eq in Hop. subst s. reflexivity.
Qed.

Lemma stats_payload_truthy data :
  is_string (read_prop data "op") "stats" = true → truthy data = true.
Proof.
  destruct data as [| |b|z|s|items|fs|name message]; simpl;
    try discriminate; try reflexivity.
  destruct s as [|c s]; [discriminate|reflexivity].
Qed.

Lemma call_each_stats self data hs w :
  (∀ l, l ∈ hs → listener_event l = "message") →
  is_string (read_prop data "op") "stats" = true →
  call_each (fun l => LavaNode.run_listener LavaLink.message self l [data]) hs w
    = (w, Normal tt).
Proof.
  intros Hall Hop. induction hs as [|l hs IH]; simpl; [reflexivity|].
  assert (Hl : listener_event l = "message") by (apply Hall; left).
  assert (Hrun : LavaNode.run_listener LavaLink.message self l [data] w
                 = (w, Normal tt)).
  { destruct l as [| |ev id]; simpl in Hl; [discriminate Hl| |reflexivity].
    simpl. step (message_ignores_stats self data w Hop). reflexivity. }
  step Hrun. apply IH. intros l' Hin. apply Hall. right. exact Hin.
Qed.

Lemma bind_record {B} e (k : unit → M B) w :
  bind (record e) k w = k tt (with_trace (trace w ++ [e]) w).
Proof. reflexivity. Qed.

Lemma bind_ret_world {A B} (m : M A) (f : A → B) w :
  (bind m (fun a => ret (f a)) w).1 = (m w).1.
Proof. unfold bind. destruct (m w) as [w' [a|e]]; reflexivity. Qed.

(** The message signal is the first thing a forwarded payload causes,
    and nothing it causes touches a node. *)
Lemma emit_message_forwards w self n data :
  node_store w !! self = Some n →
  node_store (LavaNode.emit_with_route LavaLink.message self "message" [data] w).1
    = node_store w ∧
  ∃ more,
    trace (LavaNode.emit_with_route LavaLink.message self "message" [data] w).1 =
      trace w ++ Emit (ENode self) "message" [data] :: more.
Proof.
  intros Hn. unfold LavaNode.emit_with_route.
  rewrite (bind_normal _ _ _ _ _ (this_node_some _ _ _ Hn)).
  unfold emit_with.
  pose (tail := match listening "message" (node_listeners n) with
               | [] => ret false
               | hs =>
                   call_each
                     (fun l => LavaNode.run_listener LavaLink.message self l [data])
                     hs ;;
                   ret true
               end).
  assert (Htail : gentle tail).
  { unfold tail. destruct (listening "message" (node_listeners n)).
    - apply quiet_gentle, quiet_ret.
    - apply gentle_bind; [|intros ?; apply quiet_gentle, quiet_ret].
      apply gentle_call_each. intros l'. apply gentle_run_listener. }
  rewrite bind_record. cbv beta.
  pose (w1 := with_trace (trace w ++ [Emit (ENode self) "message" [data]]) w).
  change (node_store (tail w1).1 = node_store w ∧
          ∃ more, trace (tail w1).1 =
                    trace w ++ Emit (ENode self) "message" [data] :: more).
  destruct (Htail w1) as [Hnodes [more Hmore]].
  split; [exact Hnodes|]. exists more. rewrite Hmore. simpl.
  rewrite <- app_assoc. reflexivity.
Qed.

(** C8, amended: a parsed payload that is falsy is dropped; a payload
    tagged "stats" replaces the statistics snapshot wholesale and is
    forwarded as a message signal all the same, with no further effect;
    every other payload is forwarded verbatim as a message signal and
    leaves the snapshot as it was. *)
Theorem message_spec (w : World) (self : ref) (n : LavaNode) (frame : string)
    (data : value) :
  node_store w !! self = Some n →
  JSON_parse frame = Normal data →
  (truthy data = false →
   LavaNode._message LavaLink.message self frame w = (w, Normal VUndef)) ∧
  (is_string (read_prop data "op") "stats" = true →
   ∃ heard,
     LavaNode._message LavaLink.message self frame w =
       (with_trace (trace w ++ [Emit (ENode self) "message" [data]])
          (with_node_store (<[self := with_stats data n]> (node_store w)) w),
        Normal (VBool heard))) ∧
  (truthy data = true →
   is_string (read_prop data "op") "stats" = false →
   node_store (run (LavaNode._message LavaLink.message self frame) w)
     = node_store w ∧
   ∃ more,
     trace (run (LavaNode._message LavaLink.message self frame) w) =
       trace w ++ Emit (ENode self) "message" [data] :: more).
Proof.
  intros Hn Hparse. split; [|split].
  - intros Hfalsy. unfold LavaNode._message. rewrite Hparse, Hfalsy. reflexivity.
  - intros Hop. unfold LavaNode._message.
    rewrite Hparse, (stats_payload_truthy _ Hop), Hop. simpl.
    step (assign_node_some _ _ _ (with_stats data) Hn).
    match goal with |- context [bind _ _ ?w1] =>
      assert (Hemit : ∃ heard,
        LavaNode.emit_with_route LavaLink.message self "message" [data] w1 =
          (with_trace (trace w1 ++ [Emit (ENode self) "message" [data]]) w1,
           Normal heard))
    end.
    { unfold LavaNode.emit_with_route.
      erewrite (bind_normal (this_node _))
        by (apply this_node_some; simpl; eapply store_lookup_insert, Hn).
      unfold emit_with, bind at 1, record. simpl.
      destruct (listening "message" (node_listeners n)) as [|l hs] eqn:Hl.
      - exists false. reflexivity.
      - exists true. erewrite bind_normal; [reflexivity|].
        apply (call_each_stats self data (l :: hs)); [|exact Hop].
        intros l' Hin. rewrite <- Hl in Hin. unfold listening in Hin.
        apply list_elem_of_filter in Hin. tauto. }
    destruct Hemit as [heard Hemit]. exists heard. step Hemit. reflexivity.
  - intros Htruthy Hop.
    assert (Hrun :
      run (LavaNode._message LavaLink.message self frame) w =
        (LavaNode.emit_with_route LavaLink.message self "message" [data] w).1).
    { unfold run, LavaNode._message. rewrite Hparse, Htruthy, Hop. simpl.
      unfold bind at 1. unfold ret at 1. apply bind_ret_world. }
    rewrite Hrun. apply emit_message_forwards with (n := n). exact Hn.
Qed.
End Gentle.

Lemma message_spec_witness :
  LavaNode._message LavaLink.message 0%nat "null" playing_world =
    (playing_world, Normal VUndef) ∧
  (∃ heard,
     LavaNode._message LavaLink.message 0%nat "{stats}" playing_world =
       (with_trace
          (trace playing_world ++ [Emit (ENode 0%nat) "message" [example_stats]])
          (with_node_store
             (<[0%nat := with_stats example_stats playing_node]>
                (node_store playing_world)) playing_world),
        Normal (VBool heard))) ∧
  (node_store (run (LavaNode._message LavaLink.message 0%nat "{end}") playing_world)
     = node_store playing_world ∧
   ∃ more,
     trace (run (LavaNode._message LavaLink.message 0%nat "{end}") playing_world) =
       trace playing_world ++ Emit (ENode 0%nat) "message" [example_end] :: more).
Proof.
  pose proof (message_spec playing_world 0%nat playing_node "null" VNull
                playing_world_node) as Hnull.
  pose proof (message_spec playing_world 0%nat playing_node "{stats}" example_stats
                playing_world_node) as Hstats.
  pose proof (message_spec playing_world 0%nat playing_node "{end}" example_end
                playing_world_node) as Hend.
  split; [|split].
  - apply Hnull; reflexivity.
  - apply Hstats; reflexivity.
  - apply Hend; reflexivity.
Defined.

(** C8 as written fails: a stats frame is forwarded as a message signal
    like every other frame. *)
Lemma stats_frame_is_forwarded : ¬ stats_not_forwarded playing_world 0%nat "{stats}".
Proof.
  intros Hclaim. apply (Hclaim example_stats); [reflexivity|reflexivity|].
  apply list_elem_of_In. vm_compute. do 3 right. left. reflexivity.
Qed.

(** ** Joining a voice channel *)

Section Join.
Context `{JSON}.

Lemma spawnPlayer_new w data :
  players w !! guild_id (d data) = None →
  LavaLink.spawnPlayer
    (mkLavaLinkPlayerOptions (host data) (guild_id (d data)) (channel_id (d data))) w =
    (with_players (<[guild_id (d data) := length (player_store w)]> (players w))
       (with_player_store (player_store w ++ [fresh_player w data]) w),
     Normal tt).
Proof.
  intros Hnone. unfold LavaLink.spawnPlayer. simpl. rewrite Hnone. reflexivity.
Qed.

(** C1, amended: when a session already exists for the guild, [join]
    returns that same session, changes nothing and forwards nothing;
    only a call for a guild without a session forwards the payload,
    once, to the shard's send (or to the gateway of an unsharded
    client) and then creates the session, so a second call returns the
    session the first one created and forwards nothing more. *)
Theorem join_spec (w : World) (data : Packet) :
  (∀ player,
     players w !! guild_id (d data) = Some player →
     LavaLink.join data w = (w, Normal (Some player))) ∧
  (∀ shard_ids,
     players w !! guild_id (d data) = None →
     connections (client w) = Some shard_ids →
     client_ws (client w) = false →
     shard data ∈ shard_ids →
     let sent := ShardSend (shard data) (op data) (d data) in
     LavaLink.join data w = (joined w data sent, Normal None) ∧
     LavaLink.join data (joined w data sent) =
       (joined w data sent, Normal (Some (length (player_store w))))) ∧
  (players w !! guild_id (d data) = None →
   connections (client w) = None →
   client_ws (client w) = true →
   LavaLink.join data w = (joined w data (GatewaySend data), Normal None) ∧
   LavaLink.join data (joined w data (GatewaySend data)) =
     (joined w data (GatewaySend data), Normal (Some (length (player_store w))))).
Proof.
  assert (Hagain : ∀ w' player,
            players w' !! guild_id (d data) = Some player →
            LavaLink.join data w' = (w', Normal (Some player))).
  { intros w' player Hsome. unfold LavaLink.join. rewrite Hsome. reflexivity. }
  split; [apply Hagain|]. split.
  - intros shard_ids Hnone Hconn Hws Hshard sent. split.
    + unfold LavaLink.join. rewrite Hnone, Hconn, Hws. simpl.
      unfold bind at 1. unfold ret at 1.
      unfold LavaLink.shard_send at 1. unfold bind at 1. unfold bind at 1.
      rewrite Hconn. rewrite bool_decide_eq_true_2 by exact Hshard.
      unfold record. rewrite spawnPlayer_new by exact Hnone. reflexivity.
    + apply Hagain. simpl. apply lookup_insert_eq.
  - intros Hnone Hconn Hws. split.
    + unfold LavaLink.join. rewrite Hnone, Hconn, Hws. simpl.
      unfold bind at 1. unfold bind at 1. unfold bind at 1. unfold record.
      rewrite spawnPlayer_new by exact Hnone. reflexivity.
    + apply Hagain. simpl. apply lookup_insert_eq.
Qed.
End Join.

Lemma join_spec_witness :
  LavaLink.join join_g1 playing_world = (playing_world, Normal (Some 0%nat)) ∧
  LavaLink.join join_g1 registered_world =
    (joined registered_world join_g1
       (ShardSend (shard join_g1) (op join_g1) (d join_g1)),
     Normal None) ∧
  LavaLink.join join_g1
    (joined registered_world join_g1
       (ShardSend (shard join_g1) (op join_g1) (d join_g1))) =
    (joined registered_world join_g1
       (ShardSend (shard join_g1) (op join_g1) (d join_g1)),
     Normal (Some (length (player_store registered_world)))).
Proof.
  split.
  - apply (proj1 (join_spec playing_world join_g1)). vm_compute. reflexivity.
  - apply (proj1 (proj2 (join_spec registered_world join_g1)) [0]).
    + vm_compute. reflexivity.
    + reflexivity.
    + reflexivity.
    + constructor.
Defined.

(** C1 as written fails: a call for a guild that already has a session
    returns before anything is forwarded. *)
Lemma join_again_forwards_nothing : ¬ join_forwards playing_world join_g1.
Proof.
  intros [more Hmore]. vm_compute in Hmore. discriminate Hmore.
Qed.

(** * Further properties of the library *)

(** ** The node connection *)

(** An error signalled by a node the router made goes to the node's
    signal and on to the host client; the call throws exactly when the
    client has no error listener. *)
Lemma delete_middle {A} (l : list A) (x : A) (r : list A) :
  delete (length l) (l ++ x :: r) = l ++ r.
Proof. induction l as [|a l IH]; simpl; [reflexivity|]. f_equal. exact IH. Qed.

Lemma insert_last {A} (l : list A) (x y : A) :
  <[length l := y]> (l ++ [x]) = l ++ [y].
Proof. induction l as [|a l IH]; simpl; [reflexivity|]. f_equal. exact IH. Qed.

Lemma client_emit_error w error :
  client_emit "error" [error] w =
    (with_trace (trace w ++ [Emit EClient "error" [error]]) w,
     match error_outcome w error with
     | Normal _ => Normal true
     | Throw e => Throw e
     end).
Proof.
  unfold client_emit, emit_with, error_outcome. rewrite bind_record.
  cbn [client with_trace].
  destruct (listening "error" (client_listeners (client w))) as [|l hs].
  - reflexivity.
  - rewrite (bind_normal _ _ _ _ _ (call_each_observers _ _ _)). reflexivity.
Qed.

Lemma router_error_signal w self n error :
  node_store w !! self = Some n →
  node_listeners n = router_listeners →
  LavaNode.emit self "error" [error] w =
    (error_reported w self error,
     match error_outcome w error with
     | Normal _ => Normal true
     | Throw e => Throw e
     end).
Proof.
  intros Hn Hls. unfold LavaNode.emit, LavaNode.emit_with_route.
  step (this_node_some _ _ _ Hn). rewrite Hls.
  unfold emit_with. rewrite bind_record.
  change (listening "error" router_listeners) with [ForwardError].
  cbn [call_each LavaNode.run_listener hd].
  unfold bind at 1. unfold bind at 1. unfold bind at 1.
  rewrite client_emit_error. unfold error_reported, error_outcome.
  cbn [client with_trace trace]. rewrite <- app_assoc.
  destruct (listening "error" (client_listeners (client w))); reflexivity.
Qed.

Section NodeConnection.
Context `{JSON}.

(** X1: a frame that does not parse leaves every store as it was; on a
    node made by the router the parse error is signalled on the node and
    handed to the host client's error channel, and the call throws
    exactly when the client has no error listener. *)
Theorem message_parse_failure (route : ref → value → M value) (w : World)
    (self : ref) (n : LavaNode) (frame : string) (error : value) :
  node_store w !! self = Some n →
  node_listeners n = router_listeners →
  JSON_parse frame = Throw error →
  LavaNode._message route self frame w =
    (error_reported w self error, error_outcome w error).
Proof.
  intros Hn Hls Hparse. unfold LavaNode._message. rewrite Hparse.
  unfold bind. rewrite (router_error_signal w self n error Hn Hls).
  unfold error_outcome.
  destruct (listening "error" (client_listeners (client w))); reflexivity.
Qed.

(** X2: a socket error whose text mentions "socket hang up" is swallowed
    whatever else it mentions; otherwise one that mentions "ECONNREFUSED"
    sets one reconnect timer and signals nothing; every other error is
    signalled, and none of them touches the node. *)
Theorem socket_error_cases (w : World) (self : ref) (n : LavaNode)
    (error : value) (text : string) :
  node_store w !! self = Some n →
  nullish error = false →
  read_prop error "message" = VStr text →
  (includes "socket hang up" text = true →
   LavaNode._error self error w = (w, Normal VUndef)) ∧
  (includes "socket hang up" text = false →
   includes "ECONNREFUSED" text = true →
   LavaNode._error self error w =
     (with_timers (timers w ++ [reconnect_timer w self n]) w, Normal VUndef)) ∧
  (includes "socket hang up" text = false →
   includes "ECONNREFUSED" text = false →
   node_listeners n = router_listeners →
   LavaNode._error self error w =
     (error_reported w self error, error_outcome w error)).
Proof.
  intros Hn Hnn Htext.
  assert (Hstart : ∀ k,
    LavaNode._error self error w =
      match VStr text with
      | VStr t =>
          if includes "socket hang up" t then ret VUndef
          else if includes "ECONNREFUSED" t
               then LavaNode._reconnect self ;; ret VUndef
               else let* heard := LavaNode.emit self "error" [error] in
                    ret (VBool heard)
      | _ => k
      end w).
  { intros k. unfold LavaNode._error.
    step (get_prop_some error "message" w Hnn). rewrite Htext. reflexivity. }
  rewrite (Hstart (ret VUndef)). split; [|split].
  - intros ->. reflexivity.
  - intros -> ->. unfold LavaNode._reconnect.
    erewrite (bind_normal (bind _ _)); [reflexivity|].
    step (this_node_some _ _ _ Hn). reflexivity.
  - intros -> -> Hls. unfold bind.
    rewrite (router_error_signal w self n error Hn Hls).
    unfold error_outcome.
    destruct (listening "error" (client_listeners (client w))); reflexivity.
Qed.

(** X3: a refused connection followed by the abnormal close of the same
    socket sets two reconnect timers, and when both have run two sockets
    have been opened and the node's handle is the second. *)
Theorem refused_then_closed_reconnects_twice (w : World) (self : ref)
    (n : LavaNode) (error reason : value) (text : string) (code : Z) :
  node_store w !! self = Some n →
  nullish error = false →
  read_prop error "message" = VStr text →
  includes "socket hang up" text = false →
  includes "ECONNREFUSED" text = true →
  code ≠ 1000 →
  let pending :=
    with_timers (timers w ++ [reconnect_timer w self n; reconnect_timer w self n])
      (with_node_store (<[self := with_ready (Some false) n]> (node_store w)) w) in
  let i := length (timers w) in
  (LavaNode._error self error ;; LavaNode._close self code reason) w =
    (pending, Normal VUndef) ∧
  ∀ ms, timeout_delay (reconnectInterval n) ≤ ms →
    ∃ after,
      (Runtime.tick ms ;; Runtime.fire i ;; Runtime.fire i) pending =
        (after, Normal tt) ∧
      timers after = timers w ∧
      sockets after = sockets w ++ [self; self] ∧
      (ws <$> node_store after !! self) = Some (Some (S (length (sockets w)))).
Proof.
  intros Hn Hnn Htext Hhang Hrefused Hcode pending i.
  assert (Herr : LavaNode._error self error w =
            (with_timers (timers w ++ [reconnect_timer w self n]) w, Normal VUndef)).
  { unfold LavaNode._error. step (get_prop_some error "message" w Hnn).
    rewrite Htext, Hhang, Hrefused. unfold LavaNode._reconnect.
    erewrite (bind_normal (bind _ _)); [reflexivity|].
    step (this_node_some _ _ _ Hn). reflexivity. }
  split.
  - step Herr. rewrite (close_abnormal _ self n code reason) by assumption.
    unfold reconnect_scheduled, pending, reconnect_timer. simpl.
    rewrite <- app_assoc. reflexivity.
  - intros ms Hms.
    pose proof (timeout_delay_positive (reconnectInterval n)) as Hpos.
    unfold bind at 1, Runtime.tick.
    set (w1 := with_clock (clock pending + Z.max 0 ms) pending).
    assert (Hn1 : node_store w1 !! self = Some (with_ready (Some false) n)).
    { simpl. eapply store_lookup_insert, Hn. }
    assert (Ht1 : timers w1 !! i = Some (reconnect_timer w self n)).
    { simpl. apply list_lookup_middle. reflexivity. }
    rewrite (bind_normal _ _ _ _ _
               (fire_due w1 i (reconnect_timer w self n) _ Ht1
                  ltac:(simpl; lia) Hn1)).
    set (w2 := reopened w1 i (target (reconnect_timer w self n))
                 (with_ready (Some false) n)).
    assert (Hn2 : node_store w2 !! self =
              Some (with_ws (Some (length (sockets w1))) (with_ready (Some false) n))).
    { simpl. eapply store_lookup_insert, store_lookup_insert, Hn. }
    assert (Ht2 : timers w2 !! i = Some (reconnect_timer w self n)).
    { simpl. unfold i. rewrite delete_middle.
      apply list_lookup_middle. reflexivity. }
    eexists. split.
    + apply (fire_due w2 i (reconnect_timer w self n) _ Ht2
               ltac:(simpl; lia) Hn2).
    + simpl. split; [|split].
      * unfold i. rewrite delete_middle. apply delete_last.
      * rewrite <- app_assoc. reflexivity.
      * rewrite store_insert_insert.
        erewrite store_lookup_insert by (eapply store_lookup_insert, Hn).
        simpl. rewrite length_app, Nat.add_1_r. reflexivity.
Qed.
End NodeConnection.

Section NodeTraffic.
Context `{JSON}.

Lemma new_result options w :
  LavaNode.new options w =
    (with_node_store
       (node_store w ++ [with_ws (Some (length (sockets w))) (constructed options)])
       (with_trace
          (trace w ++
             [WsOpen (length (sockets w)) (gateway (constructed options))
                (handshake (constructed options))])
          (with_sockets (sockets w ++ [length (node_store w)]) w)),
     Normal (length (node_store w))).
Proof.
  unfold LavaNode.new, bind at 1, allocate_node.
  erewrite (bind_normal (LavaNode._connect _));
    [|apply connect_opens; simpl; apply list_lookup_middle; reflexivity].
  unfold ret. simpl. rewrite insert_last. reflexivity.
Qed.

(** X4: constructing a node opens exactly one socket, to "ws://" plus
    the gateway, presenting password, shard count and user id; the new
    node has that socket as its handle, is not yet marked ready, and its
    shard count is 1 exactly when the option is missing, zero or one. *)
Theorem node_constructor (options : LavaNodeOptions) (w : World) :
  LavaNode.new options w =
    (with_node_store
       (node_store w ++ [with_ws (Some (length (sockets w))) (constructed options)])
       (with_trace
          (trace w ++
             [WsOpen (length (sockets w)) (gateway (constructed options))
                (handshake (constructed options))])
          (with_sockets (sockets w ++ [length (node_store w)]) w)),
     Normal (length (node_store w))) ∧
  ready (constructed options) = None ∧
  (shards (constructed options) = 1 ↔
   no_shards options = None ∨ no_shards options = Some 0 ∨ no_shards options = Some 1).
Proof.
  split; [apply new_result|split].
  - reflexivity.
  - unfold constructed, num_or. simpl. destruct (no_shards options) as [z|].
    + destruct (Z.eqb_spec z 0) as [->|Hz].
      * split; [intros _; right; left; reflexivity|reflexivity].
      * split; [intros ->; right; right; reflexivity|].
        intros [Hx|[Hx|Hx]]; congruence.
    + split; [intros _; left; reflexivity|reflexivity].
Qed.

(** X5: a payload that cannot be serialised never reaches the socket,
    whether or not the handle is there: on a node made by the router the
    serialisation error is signalled on the node and handed to the host
    client's error channel instead. *)
Theorem send_unserialisable (w : World) (self : ref) (n : LavaNode)
    (data error : value) :
  node_store w !! self = Some n →
  node_listeners n = router_listeners →
  JSON_stringify data = Throw error →
  LavaNode.send self data w = (error_reported w self error, error_outcome w error).
Proof.
  intros Hn Hls Hjson. unfold LavaNode.send. rewrite Hjson. unfold bind.
  rewrite (router_error_signal w self n error Hn Hls). unfold error_outcome.
  destruct (listening "error" (client_listeners (client w))); reflexivity.
Qed.

End NodeTraffic.

(** ** The player session, continued *)

Lemma with_paused_back p :
  paused p = false → with_paused false (with_paused true p) = p.
Proof. destruct p; simpl; intros ->; reflexivity. Qed.

Lemma store_insert_same {A} (l : list A) r x : l !! r = Some x → <[r := x]> l = l.
Proof. apply list_insert_id. Qed.

Lemma with_player_store_same w : with_player_store (player_store w) w = w.
Proof. destruct w; reflexivity. Qed.

Section Commands.
Context `{JSON}.

(** X8: on a live session [connect], [volume] and [seek] each hand
    exactly one message to the node's socket, carrying the session's
    guild id, and change nothing in the session. *)
Theorem commands_only_send (w : World) (self : ref) (p : LavaPlayer)
    (socket : nat) :
  live w self p socket →
  (∀ data payload,
     JSON_stringify (voice_update p data) = Normal payload →
     LavaPlayer.connect self data w =
       (with_trace (trace w ++ [WsSend socket payload]) w, Normal tt)) ∧
  (∀ level payload,
     JSON_stringify (volume_message p level) = Normal payload →
     LavaPlayer.volume self level w =
       (with_trace (trace w ++ [WsSend socket payload]) w, Normal tt)) ∧
  (∀ position payload,
     JSON_stringify (seek_message p position) = Normal payload →
     LavaPlayer.seek self position w =
       (with_trace (trace w ++ [WsSend socket payload]) w, Normal tt)).
Proof.
  intros Hlive. pose proof Hlive as [Hp _]. split; [|split].
  - intros data payload Hjson. unfold LavaPlayer.connect.
    step (this_player_some _ _ _ Hp).
    step (node_send_live _ _ _ _ _ _ Hlive Hjson). reflexivity.
  - intros level payload Hjson. unfold LavaPlayer.volume.
    step (this_player_some _ _ _ Hp).
    step (node_send_live _ _ _ _ _ _ Hlive Hjson). reflexivity.
  - intros position payload Hjson. unfold LavaPlayer.seek.
    step (this_player_some _ _ _ Hp).
    step (node_send_live _ _ _ _ _ _ Hlive Hjson). reflexivity.
Qed.

(** X10: pausing and resuming an unpaused live session sends the two
    pause messages in that order and leaves the session exactly as it
    was. *)
Theorem pause_resume_round_trip (w : World) (self : ref) (p : LavaPlayer)
    (socket : nat) (on off : string) :
  live w self p socket →
  paused p = false →
  JSON_stringify (pause_message p (VBool true)) = Normal on →
  JSON_stringify (pause_message p (VBool false)) = Normal off →
  (LavaPlayer.pause self (VBool true) ;; LavaPlayer.pause self (VBool false)) w =
    (with_trace (trace w ++ [WsSend socket on; WsSend socket off]) w, Normal tt).
Proof.
  intros Hlive Hoff Hon Hoff'. pose proof Hlive as [Hp _].
  step (pause_change w self p socket (VBool true) on Hlive
          ltac:(rewrite Hoff; discriminate) Hon).
  assert (Hlive1 :
    live (with_trace (trace w ++ [WsSend socket on])
            (with_player_store
               (<[self := with_paused (truthy (VBool true)) p]> (player_store w)) w))
      self (with_paused true p) socket).
  { destruct Hlive as (_ & n & nd & Hn & Hnd & Hws). split.
    - simpl. eapply store_lookup_insert, Hp.
    - exists n, nd. done. }
  rewrite (pause_change _ self (with_paused true p) socket (VBool false) off Hlive1
             ltac:(discriminate) Hoff').
  simpl. rewrite store_insert_insert, (with_paused_back p Hoff).
  rewrite (store_insert_same _ _ _ Hp), <- app_assoc.
  destruct w; reflexivity.
Qed.

Lemma stop_unbound w self p :
  player_store w !! self = Some p →
  node p = None →
  LavaPlayer.stop self w = (w, Throw unbound_error).
Proof.
  intros Hp Hnode. unfold LavaPlayer.stop. step (this_player_some _ _ _ Hp).
  apply bind_throw. unfold LavaPlayer.node_send.
  step (this_player_some _ _ _ Hp). rewrite Hnode. reflexivity.
Qed.

Lemma play_unbound w self p song options :
  player_store w !! self = Some p →
  node p = None →
  LavaPlayer.play self song options w =
    (with_player_store (<[self := with_track song p]> (player_store w)) w,
     Throw unbound_error).
Proof.
  intros Hp Hnode. unfold LavaPlayer.play.
  step (assign_player_some _ _ _ (with_track song) Hp).
  assert (Hp1 : player_store
                  (with_player_store
                     (<[self := with_track song p]> (player_store w)) w)
                  !! self = Some (with_track song p)).
  { simpl. eapply store_lookup_insert, Hp. }
  step (this_player_some _ _ _ Hp1).
  apply bind_throw. unfold LavaPlayer.node_send.
  step (this_player_some _ _ _ Hp1). simpl. rewrite Hnode. reflexivity.
Qed.

(** X11: a session whose node is undefined (its host was not registered
    when it was created) cannot send: [stop] throws a TypeError and
    changes nothing, and [play] throws the same error after it has
    already stored the track, with [playing] left as it was. *)
Theorem unbound_session_throws (w : World) (self : ref) (p : LavaPlayer) :
  player_store w !! self = Some p →
  node p = None →
  LavaPlayer.stop self w = (w, Throw unbound_error) ∧
  ∀ song options,
    LavaPlayer.play self song options w =
      (with_player_store (<[self := with_track song p]> (player_store w)) w,
       Throw unbound_error).
Proof.
  intros Hp Hnode. split; [apply (stop_unbound w self p); assumption|].
  intros song options. apply play_unbound; assumption.
Qed.
End Commands.

(** X9: [exception] never changes the session; it emits one error
    signal carrying the message, and the call throws exactly when nobody
    listens for errors on the session. *)
Theorem exception_outcome (w : World) (self : ref) (p : LavaPlayer)
    (message : value) :
  player_store w !! self = Some p →
  LavaPlayer.exception self message w =
    (with_trace (trace w ++ [Emit (EPlayer self) "error" [message]]) w,
     match listening "error" (player_listeners p) with
     | [] => Throw (unhandled [message])
     | _ => Normal tt
     end).
Proof.
  intros Hp. unfold LavaPlayer.exception, player_emit.
  unfold bind at 1. unfold bind at 1. rewrite (this_player_some _ _ _ Hp).
  unfold emit_with. rewrite bind_record.
  destruct (listening "error" (player_listeners p)) as [|l hs].
  - reflexivity.
  - rewrite (bind_normal _ _ _ _ _ (call_each_observers _ _ _)). reflexivity.
Qed.

(** ** The router *)

Lemma createNode_result options w :
  LavaLink.createNode options w = (created w options, Normal tt).
Proof.
  unfold LavaLink.createNode.
  change {| no_gateway := lo_gateway options; no_user := lo_user options;
            no_shards := lo_shards options; no_password := lo_password options;
            no_reconnectInterval := None |} with (node_options options).
  step (new_result (node_options options) w). unfold LavaNode.on.
  erewrite (bind_normal (assign_node _ _));
    [|apply assign_node_some; simpl; apply list_lookup_middle; reflexivity].
  erewrite (bind_normal (assign_node _ _));
    [|apply assign_node_some; simpl; rewrite insert_last;
      apply list_lookup_middle; reflexivity].
  simpl. rewrite !insert_last. reflexivity.
Qed.

Section Registration.
Context `{JSON}.

(** X12: [createNode] opens one socket, stores the new node under its
    host with the router's two listeners attached, and never passes a
    reconnect interval on, so every node of the router reconnects after
    10000 ms. *)
Theorem createNode_registers (options : LavaLinkNodeOptions) (w : World) :
  LavaLink.createNode options w = (created w options, Normal tt) ∧
  nodes (created w options) !! lo_host options = Some (length (node_store w)) ∧
  node_store (created w options) !! length (node_store w)
    = Some (router_node w options) ∧
  node_listeners (router_node w options) = [ForwardError; RouteMessage] ∧
  reconnectInterval (router_node w options) = 10000.
Proof.
  split; [apply createNode_result|]. split; [simpl; apply lookup_insert_eq|].
  split; [simpl; apply list_lookup_middle; reflexivity|]. split; reflexivity.
Qed.

(** X13: registering a second node under a host that is taken replaces
    the map entry and nothing else: the first node stays in the store
    with its socket as handle and its listeners attached, and both
    sockets remain open. *)
Theorem createNode_twice_keeps_first (first second : LavaLinkNodeOptions)
    (w : World) :
  lo_host second = lo_host first →
  let w1 := created w first in
  let w2 := created w1 second in
  (LavaLink.createNode first ;; LavaLink.createNode second) w = (w2, Normal tt) ∧
  nodes w2 !! lo_host first = Some (S (length (node_store w))) ∧
  node_store w2 !! length (node_store w) = Some (router_node w first) ∧
  ws (router_node w first) = Some (length (sockets w)) ∧
  sockets w2 = sockets w ++ [length (node_store w); S (length (node_store w))] ∧
  trace w2 =
    trace w ++
      [WsOpen (length (sockets w)) (gateway (router_node w first))
         (handshake (router_node w first));
       WsOpen (S (length (sockets w))) (gateway (router_node w1 second))
         (handshake (router_node w1 second))].
Proof.
  intros Hhost w1 w2. split; [|split; [|split; [|split; [|split]]]].
  - step (createNode_result first w). apply createNode_result.
  - unfold w2, w1. simpl. rewrite Hhost, lookup_insert_eq.
    rewrite length_app, Nat.add_1_r. reflexivity.
  - unfold w2, w1. simpl. apply lookup_app_l_Some.
    apply list_lookup_middle. reflexivity.
  - reflexivity.
  - unfold w2, w1. simpl. rewrite <- app_assoc, length_app, Nat.add_1_r.
    reflexivity.
  - unfold w2, w1. simpl. rewrite <- app_assoc, length_app, Nat.add_1_r.
    reflexivity.
Qed.

(** X14: registering a node under a free host and removing it again
    restores the map of nodes, but the connection is not closed: the node
    stays in the store with its socket as handle, only without listeners,
    and the trace shows the opening of the socket and nothing after it. *)
Theorem createNode_removeNode (options : LavaLinkNodeOptions) (w : World) :
  nodes w !! lo_host options = None →
  ∃ w',
    (LavaLink.createNode options ;; LavaLink.removeNode (lo_host options)) w =
      (w', Normal tt) ∧
    nodes w' = nodes w ∧
    node_store w' =
      node_store w ++ [with_node_listeners [] (router_node w options)] ∧
    ws (router_node w options) = Some (length (sockets w)) ∧
    trace w' =
      trace w ++
        [WsOpen (length (sockets w)) (gateway (router_node w options))
           (handshake (router_node w options))].
Proof.
  intros Hfree. eexists. split; [|split; [|split; [|split]]].
  - step (createNode_result options w). unfold LavaLink.removeNode. simpl.
    rewrite lookup_insert_eq. unfold LavaNode.removeAllListeners.
    erewrite (bind_normal (assign_node _ _));
      [reflexivity|apply assign_node_some; simpl; apply list_lookup_middle;
       reflexivity].
  - simpl. rewrite delete_insert_eq. apply delete_id. exact Hfree.
  - simpl. apply insert_last.
  - reflexivity.
  - reflexivity.
Qed.
End Registration.

(** ** Demultiplexing *)

Lemma players_get_string w g :
  LavaLink.players_get (VStr g) w = (w, Normal (players w !! g)).
Proof. reflexivity. Qed.

Lemma is_string_eq v s : is_string v s = true → v = VStr s.
Proof.
  destruct v; simpl; try discriminate. intros Heq.
  apply String.eqb_eq in Heq. congruence.
Qed.

(** What [end] does to a session for a reason other than "REPLACED". *)
Lemma end_clears w self p message :
  player_store w !! self = Some p →
  nullish message = false →
  is_string (read_prop message "reason") "REPLACED" = false →
  LavaPlayer.end_ self message w =
    (with_trace (trace w ++ [Emit (EPlayer self) "end" [message]])
       (with_player_store
          (<[self := with_track VNull (with_playing false p)]> (player_store w)) w),
     Normal tt).
Proof.
  intros Hp Hm Hreason. unfold LavaPlayer.end_.
  step (get_prop_some message "reason" w Hm). rewrite Hreason. simpl.
  unfold bind at 1.
  rewrite (bind_normal _ _ _ _ _ (assign_player_some _ _ _ _ Hp)).
  erewrite assign_player_some by (simpl; eapply store_lookup_insert, Hp).
  simpl. rewrite store_insert_insert.
  match goal with |- bind _ _ ?w1 = _ =>
    destruct (player_emit_quiet w1 self (with_track VNull (with_playing false p))
                "end" [message]) as [heard Hemit]
  end; [simpl; eapply store_lookup_insert, Hp|done|].
  step Hemit. reflexivity.
Qed.

Section Demultiplex.
Context `{JSON}.

(** X15: the router drops a message, changing nothing and signalling
    nothing, when it has no operation tag (or a falsy one), when the tag
    is neither "playerUpdate" nor "event", and when its guild id names
    no session. *)
Theorem message_dropped (w : World) (node : ref) (message : value) :
  nullish message = false →
  (truthy (read_prop message "op") = false →
   LavaLink.message node message w = (w, Normal VUndef)) ∧
  (routed_tag (read_prop message "op") = false →
   LavaLink.message node message w = (w, Normal VUndef)) ∧
  (match read_prop message "guildId" with
   | VStr g => players w !! g = None
   | _ => True
   end →
   LavaLink.message node message w = (w, Normal VUndef)).
Proof.
  intros Hm.
  assert (Hstart : ∀ k : value → M value,
            bind (get_prop message "op") k w = k (read_prop message "op") w).
  { intros k. apply bind_normal, get_prop_some, Hm. }
  unfold LavaLink.message. rewrite Hstart. unfold routed_tag.
  split; [|split].
  - intros ->. reflexivity.
  - destruct (truthy (read_prop message "op")); [|reflexivity]. simpl.
    intros Htag. apply orb_false_iff in Htag as [-> ->]. reflexivity.
  - intros Hguild.
    assert (Hget : ∀ k : option ref → M value,
              bind (LavaLink.players_get (read_prop message "guildId")) k w
                = k None w).
    { intros k. unfold bind, LavaLink.players_get.
      destruct (read_prop message "guildId"); try reflexivity.
      rewrite Hguild. reflexivity. }
    destruct (truthy (read_prop message "op")); [|reflexivity]. simpl.
    destruct (is_string (read_prop message "op") "playerUpdate").
    + step (get_prop_some message "guildId" w Hm). rewrite Hget. reflexivity.
    + destruct (is_string (read_prop message "op") "event"); [|reflexivity].
      step (get_prop_some message "guildId" w Hm). rewrite Hget. reflexivity.
Qed.

(** X16: a "playerUpdate" for a guild with a session replaces the
    session's cached state by the message's [state] field, whatever it
    is, and does nothing else. *)
Theorem playerUpdate_replaces_state (w : World) (node self : ref)
    (p : LavaPlayer) (message : value) (g : string) :
  read_prop message "op" = VStr "playerUpdate" →
  read_prop message "guildId" = VStr g →
  players w !! g = Some self →
  player_store w !! self = Some p →
  LavaLink.message node message w =
    (with_player_store
       (<[self := with_state (read_prop message "state") p]> (player_store w)) w,
     Normal VUndef).
Proof.
  intros Hop Hg Hself Hp.
  assert (Hm : nullish message = false).
  { destruct message; try reflexivity; discriminate Hop. }
  unfold LavaLink.message. step (get_prop_some message "op" w Hm).
  rewrite Hop. simpl. step (get_prop_some message "guildId" w Hm).
  rewrite Hg. step (players_get_string w g). rewrite Hself.
  step (get_prop_some message "state" w Hm).
  step (assign_player_some _ _ _ (with_state (read_prop message "state")) Hp).
  reflexivity.
Qed.

(** X17: an "event" of a type other than the three track events only
    emits a warn signal on the addressed session, whose text names the
    type; the session is not changed. *)
Theorem unknown_event_warns (w : World) (node self : ref) (p : LavaPlayer)
    (message : value) (g : string) :
  read_prop message "op" = VStr "event" →
  read_prop message "guildId" = VStr g →
  known_event (read_prop message "type") = false →
  players w !! g = Some self →
  player_store w !! self = Some p →
  ∃ heard,
    LavaLink.message node message w =
      (with_trace
         (trace w ++
            [Emit (EPlayer self) "warn"
               [VStr ("Unexpected event type: " +:+
                      ToString (read_prop message "type"))]]) w,
       Normal (VBool heard)).
Proof.
  intros Hop Hg Htype Hself Hp.
  assert (Hm : nullish message = false).
  { destruct message; try reflexivity; discriminate Hop. }
  unfold known_event in Htype.
  apply orb_false_iff in Htype as [Htype Hstuck].
  apply orb_false_iff in Htype as [Hend Hexc].
  unfold LavaLink.message. step (get_prop_some message "op" w Hm).
  rewrite Hop. simpl. step (get_prop_some message "guildId" w Hm).
  rewrite Hg. step (players_get_string w g). rewrite Hself.
  step (get_prop_some message "type" w Hm). rewrite Hend, Hexc, Hstuck.
  destruct (player_emit_quiet w self p "warn"
              [VStr ("Unexpected event type: " +:+
                     ToString (read_prop message "type"))] Hp)
    as [heard Hemit]; [done|].
  exists heard. step Hemit. reflexivity.
Qed.

(** X18: a frame arriving on the socket of a node made by the router
    that announces the end of a track, for a reason other than
    "REPLACED", for a guild with a session: the node emits the message
    signal, the session loses [playing] and [track], and the session
    emits the end signal carrying the payload, in that order. *)
Theorem track_end_frame_reaches_session (w : World) (socket : nat)
    (owner self : ref) (n : LavaNode) (p : LavaPlayer) (frame : string)
    (data : value) (g : string) :
  sockets w !! socket = Some owner →
  node_store w !! owner = Some n →
  node_listeners n = router_listeners →
  JSON_parse frame = Normal data →
  read_prop data "op" = VStr "event" →
  read_prop data "guildId" = VStr g →
  read_prop data "type" = VStr "TrackEndEvent" →
  is_string (read_prop data "reason") "REPLACED" = false →
  players w !! g = Some self →
  player_store w !! self = Some p →
  Runtime.deliver socket (WsMessage frame) w =
    (with_trace
       (trace w ++
          [Emit (ENode owner) "message" [data]; Emit (EPlayer self) "end" [data]])
       (with_player_store
          (<[self := with_track VNull (with_playing false p)]> (player_store w)) w),
     Normal tt).
Proof.
  intros Hsock Hn Hls Hparse Hop Hg Htype Hreason Hself Hp.
  assert (Hm : nullish data = false).
  { destruct data; try reflexivity; discriminate Hop. }
  assert (Htruthy : truthy data = true).
  { destruct data as [| |b|z|s|items|fs|name message]; try reflexivity;
      try discriminate Hop.
    destruct s; [discriminate Hop|reflexivity]. }
  set (w1 := with_trace (trace w ++ [Emit (ENode owner) "message" [data]]) w).
  assert (Hroute :
    LavaLink.message owner data w1 =
      (with_trace (trace w1 ++ [Emit (EPlayer self) "end" [data]])
         (with_player_store
            (<[self := with_track VNull (with_playing false p)]> (player_store w1)) w1),
       Normal VUndef)).
  { unfold LavaLink.message. step (get_prop_some data "op" w1 Hm).
    rewrite Hop. simpl. step (get_prop_some data "guildId" w1 Hm).
    rewrite Hg. step (players_get_string w1 g).
    change (players w1) with (players w). rewrite Hself.
    step (get_prop_some data "type" w1 Hm). rewrite Htype. simpl.
    step (end_clears w1 self p data Hp Hm Hreason). reflexivity. }
  unfold Runtime.deliver. rewrite Hsock.
  unfold LavaNode._message. rewrite Hparse, Htruthy, Hop. simpl.
  unfold bind at 1. unfold bind at 1. unfold ret at 1. unfold bind at 1.
  unfold LavaNode.emit_with_route.
  rewrite (bind_normal _ _ _ _ _ (this_node_some _ _ _ Hn)). rewrite Hls.
  unfold emit_with. rewrite bind_record.
  change (listening "message" router_listeners) with [RouteMessage].
  cbn [call_each LavaNode.run_listener hd].
  fold w1. unfold bind at 1. unfold bind at 1. unfold bind at 1.
  rewrite Hroute. unfold ret, w1. simpl. rewrite <- app_assoc. reflexivity.
Qed.
End Demultiplex.

(** ** Leaving and joining *)

Section Leave.
Context `{JSON}.

Lemma shard_send_ok w shard_ids shard_id opcode payload :
  connections (client w) = Some shard_ids →
  shard_id ∈ shard_ids →
  LavaLink.shard_send shard_id opcode payload w =
    (with_trace (trace w ++ [ShardSend shard_id opcode payload]) w, Normal tt).
Proof.
  intros Hconn Hin. unfold LavaLink.shard_send. rewrite Hconn.
  rewrite bool_decide_eq_true_2 by exact Hin. reflexivity.
Qed.

(** X19: [leave] for a guild without a session does nothing at all.  For
    a guild with a session, on a sharded client, it forwards the payload
    and detaches the session's listeners, and then throws, because a
    session has no [destroy] method; the entry of the session is never
    deleted, so the guild still has its session afterwards. *)
Theorem leave_never_removes (w : World) (data : Packet) :
  (players w !! guild_id (d data) = None →
   LavaLink.leave data w = (w, Normal tt)) ∧
  (∀ self p shard_ids,
     players w !! guild_id (d data) = Some self →
     player_store w !! self = Some p →
     connections (client w) = Some shard_ids →
     client_ws (client w) = false →
     shard data ∈ shard_ids →
     LavaLink.leave data w =
       (left_behind w data self p, Throw LavaLink.destroy_missing) ∧
     players (left_behind w data self p) !! guild_id (d data) = Some self ∧
     LavaLink.join data (left_behind w data self p) =
       (left_behind w data self p, Normal (Some self))).
Proof.
  split.
  - intros Hnone. unfold LavaLink.leave. rewrite Hnone. reflexivity.
  - intros self p shard_ids Hself Hp Hconn Hws Hshard. split; [|split].
    + unfold LavaLink.leave. rewrite Hself, Hconn, Hws. simpl.
      unfold bind at 1. unfold ret at 1.
      rewrite (bind_normal _ _ _ _ _
                 (shard_send_ok w shard_ids _ _ _ Hconn Hshard)).
      unfold LavaPlayer.removeAllListeners.
      erewrite (bind_normal (assign_player _ _))
        by (apply assign_player_some; exact Hp).
      reflexivity.
    + exact Hself.
    + unfold LavaLink.join. simpl. rewrite Hself. reflexivity.
Qed.

(** X20: [join] on a client that offers neither transport, or both,
    forwards nothing, creates no session and returns undefined; on a
    sharded client whose shard has no connection it throws before any
    session is created. *)
Theorem join_without_transport (w : World) (data : Packet) :
  players w !! guild_id (d data) = None →
  (bool_decide (is_Some (connections (client w))) = client_ws (client w) →
   LavaLink.join data w = (w, Normal None)) ∧
  (∀ shard_ids,
     connections (client w) = Some shard_ids →
     client_ws (client w) = false →
     shard data ∉ shard_ids →
     LavaLink.join data w = (w, Throw missing_shard_error)).
Proof.
  intros Hnone. split.
  - intros Hsame. unfold LavaLink.join. rewrite Hnone, Hsame.
    destruct (client_ws (client w)); reflexivity.
  - intros shard_ids Hconn Hws Hout. unfold LavaLink.join.
    rewrite Hnone, Hconn, Hws. simpl.
    unfold bind at 1. unfold ret at 1. apply bind_throw, bind_throw.
    unfold LavaLink.shard_send. rewrite Hconn.
    rewrite bool_decide_eq_false_2 by exact Hout. reflexivity.
Qed.

Lemma join_sharded_new w data shard_ids :
  players w !! guild_id (d data) = None →
  connections (client w) = Some shard_ids →
  client_ws (client w) = false →
  shard data ∈ shard_ids →
  LavaLink.join data w =
    (joined w data (ShardSend (shard data) (op data) (d data)), Normal None).
Proof.
  intros Hnone Hconn Hws Hshard. unfold LavaLink.join.
  rewrite Hnone, Hconn, Hws. simpl.
  unfold bind at 1. unfold ret at 1.
  unfold LavaLink.shard_send at 1. unfold bind at 1. unfold bind at 1.
  rewrite Hconn. rewrite bool_decide_eq_true_2 by exact Hshard.
  unfold record. rewrite spawnPlayer_new by exact Hnone. reflexivity.
Qed.

(** X21: [join] does not check the host.  Joining through a host that
    is not registered still forwards the payload and creates a session,
    bound to no node; the first [play] on it throws a TypeError after
    storing the track. *)
Theorem join_unknown_host (w : World) (data : Packet) (shard_ids : list Z) :
  players w !! guild_id (d data) = None →
  nodes w !! host data = None →
  connections (client w) = Some shard_ids →
  client_ws (client w) = false →
  shard data ∈ shard_ids →
  let self := length (player_store w) in
  let w1 := joined w data (ShardSend (shard data) (op data) (d data)) in
  LavaLink.join data w = (w1, Normal None) ∧
  (node <$> player_store w1 !! self) = Some None ∧
  ∀ song options,
    LavaPlayer.play self song options w1 =
      (with_player_store
         (<[self := with_track song (fresh_player w data)]> (player_store w1))
         w1,
       Throw unbound_error).
Proof.
  intros Hnone Hhost Hconn Hws Hshard self w1.
  assert (Hp : player_store w1 !! self = Some (fresh_player w data)).
  { simpl. apply list_lookup_middle. reflexivity. }
  split; [apply join_sharded_new with (shard_ids := shard_ids); assumption|].
  split.
  - rewrite Hp. simpl. rewrite Hhost. reflexivity.
  - intros song options.
    apply (play_unbound w1 self (fresh_player w data) song options Hp).
    simpl. exact Hhost.
Qed.
End Leave.

Section VoiceServerUpdate.
Context `{JSON}.

Lemma connect_live w self p socket data payload :
  live w self p socket →
  JSON_stringify (voice_update p data) = Normal payload →
  LavaPlayer.connect self data w =
    (with_trace (trace w ++ [WsSend socket payload]) w, Normal tt).
Proof.
  intros Hlive Hjson. pose proof Hlive as [Hp _]. unfold LavaPlayer.connect.
  step (this_player_some _ _ _ Hp).
  step (node_send_live _ _ _ _ _ _ Hlive Hjson). reflexivity.
Qed.

(** X22: a voice server update is dropped without effect when the host
    client knows no voice session for the guild, or only a falsy one, or
    when the guild has no session here; otherwise the session sends one
    voiceUpdate carrying its own guild id, the voice session id and the
    whole update as event.  A discord.js client is not asked whether the
    id is set: an undefined id is sent on as it is. *)
Theorem voiceServerUpdate_cases (host : HostVoice) (data : value) (g : string)
    (w : World) :
  read_prop data "guild_id" = VStr g →
  (∀ shard_ids,
     connections (client w) = Some shard_ids →
     client_ws (client w) = false →
     (match voiceSessions host !! g with
      | Some id => truthy id = false ∨ players w !! g = None
      | None => True
      end →
      LavaLink.voiceServerUpdate host data w = (w, Normal tt)) ∧
     (∀ id self p socket payload,
        voiceSessions host !! g = Some id →
        truthy id = true →
        players w !! g = Some self →
        live w self p socket →
        JSON_stringify (voice_update p (mkLavaPlayerConnectData id data))
          = Normal payload →
        LavaLink.voiceServerUpdate host data w =
          (with_trace (trace w ++ [WsSend socket payload]) w, Normal tt))) ∧
  (connections (client w) = None →
   client_ws (client w) = true →
   (guilds host !! g = None ∨ players w !! g = None →
    LavaLink.voiceServerUpdate host data w = (w, Normal tt)) ∧
   (∀ id self p socket payload,
      guilds host !! g = Some id →
      players w !! g = Some self →
      live w self p socket →
      JSON_stringify (voice_update p (mkLavaPlayerConnectData id data))
        = Normal payload →
      LavaLink.voiceServerUpdate host data w =
        (with_trace (trace w ++ [WsSend socket payload]) w, Normal tt))).
Proof.
  intros Hg.
  assert (Hm : nullish data = false).
  { destruct data; try reflexivity; discriminate Hg. }
  split.
  - intros shard_ids Hconn Hws. split.
    + intros Hdrop. unfold LavaLink.voiceServerUpdate. rewrite Hconn, Hws. simpl.
      unfold bind at 1. unfold ret at 1.
      step (get_prop_some data "guild_id" w Hm). rewrite Hg. simpl.
      destruct (voiceSessions host !! g) as [id|]; [|reflexivity].
      destruct Hdrop as [Hfalsy|Hnone].
      * rewrite Hfalsy. reflexivity.
      * destruct (truthy id); [|reflexivity]. simpl.
        step (players_get_string w g). rewrite Hnone. reflexivity.
    + intros id self p socket payload Hid Htruthy Hself Hlive Hjson.
      unfold LavaLink.voiceServerUpdate. rewrite Hconn, Hws. simpl.
      unfold bind at 1. unfold ret at 1.
      step (get_prop_some data "guild_id" w Hm). rewrite Hg. simpl.
      rewrite Hid, Htruthy. simpl.
      step (players_get_string w g). rewrite Hself.
      apply (connect_live w self p); assumption.
  - intros Hconn Hws. split.
    + intros Hdrop. unfold LavaLink.voiceServerUpdate. rewrite Hconn, Hws. simpl.
      erewrite (bind_normal (bind _ _)); [reflexivity|].
      step (get_prop_some data "guild_id" w Hm). rewrite Hg. simpl.
      destruct (guilds host !! g) as [id|]; [|reflexivity].
      destruct Hdrop as [Hnone|Hnone]; [discriminate Hnone|].
      step (players_get_string w g). rewrite Hnone. reflexivity.
    + intros id self p socket payload Hid Hself Hlive Hjson.
      unfold LavaLink.voiceServerUpdate. rewrite Hconn, Hws. simpl.
      erewrite (bind_normal (bind _ _)); [reflexivity|].
      step (get_prop_some data "guild_id" w Hm). rewrite Hg. simpl.
      rewrite Hid. step (players_get_string w g). rewrite Hself.
      apply (connect_live w self p); assumption.
Qed.
End VoiceServerUpdate.

(** ** The router's books stay in order *)

Ltac books Hwf :=
  let Hreg := fresh "Hreg" in
  let Hnodes := fresh "Hnodes" in
  let Hbound := fresh "Hbound" in
  let Hsock := fresh "Hsock" in
  let Htim := fresh "Htim" in
  destruct Hwf as [Hreg Hnodes Hbound Hsock Htim];
  unfold valid in *; constructor; unfold valid; simpl; try assumption.

Lemma safe_bind {A B} rs (m : M A) out (k : A → M B) out' :
  safe rs m out → (∀ a, safe (out a ++ rs) (k a) out') → safe rs (bind m k) out'.
Proof.
  intros Hm Hk w Hwf Hrs. unfold bind.
  destruct (Hm w Hwf Hrs) as (Hwf1 & Hmono & Hout).
  destruct (m w) as [w1 [a|e]]; simpl in *; [|auto].
  assert (Hrs1 : Forall (valid w1) (out a ++ rs)).
  { apply Forall_app. split; [exact Hout|].
    eapply Forall_impl; [exact Hrs|exact Hmono]. }
  destruct (Hk a w1 Hwf1 Hrs1) as (Hwf2 & Hmono2 & Hout2).
  split; [exact Hwf2|]. split; [auto|exact Hout2].
Qed.

Lemma safe_forget {A} rs (m : M A) out : safe rs m out → safe rs m nothing.
Proof.
  intros Hm w Hwf Hrs. destruct (Hm w Hwf Hrs) as (Hwf1 & Hmono & _).
  split; [exact Hwf1|]. split; [exact Hmono|].
  destruct (m w).2; [apply Forall_nil_2|exact I].
Qed.

Lemma safe_quiet {A} rs (m : M A) : quiet m → safe rs m nothing.
Proof.
  intros Hq w Hwf Hrs. destruct (Hq w) as [more Hw]. rewrite Hw.
  split; [books Hwf|]. split; [auto|].
  destruct (m w).2; [apply Forall_nil_2|exact I].
Qed.

Lemma safe_still {A} rs (m : M A) : (∀ w, (m w).1 = w) → safe rs m nothing.
Proof.
  intros Hstill w Hwf Hrs. rewrite Hstill.
  split; [exact Hwf|]. split; [auto|].
  destruct (m w).2; [apply Forall_nil_2|exact I].
Qed.

Lemma safe_this_node rs r : safe rs (this_node r) (fun _ => [r]).
Proof.
  intros w Hwf Hrs. unfold this_node.
  destruct (node_store w !! r) as [n|] eqn:Hn; simpl.
  - split; [exact Hwf|]. split; [auto|].
    apply Forall_singleton. eapply lookup_lt_Some, Hn.
  - auto.
Qed.

Lemma safe_assign_node rs r f : safe rs (assign_node r f) nothing.
Proof.
  intros w Hwf Hrs. unfold assign_node.
  destruct (node_store w !! r) as [n|]; simpl; [|auto].
  split; [|split; [|apply Forall_nil_2]].
  - books Hwf; rewrite length_insert; assumption.
  - unfold valid. simpl. intros r'. rewrite length_insert. auto.
Qed.

Lemma safe_assign_player rs r f :
  keeps_identity f → safe rs (assign_player r f) nothing.
Proof.
  intros Hf w Hwf Hrs. unfold assign_player.
  destruct (player_store w !! r) as [p|] eqn:Hp; simpl; [|auto].
  destruct (Hf p) as [Hguild Hnode].
  split; [|split; [auto|apply Forall_nil_2]].
  books Hwf.
  - intros g r' Hg. destruct (Hreg g r' Hg) as (q & Hq & Hgq).
    destruct (decide (r = r')) as [<-|Hne].
    + exists (f p). split; [eapply store_lookup_insert, Hp|]. congruence.
    + exists q. split; [|exact Hgq]. rewrite list_lookup_insert_ne; assumption.
  - apply Forall_insert; [exact Hbound|].
    rewrite Hnode. eapply (proj1 (Forall_lookup _ _) Hbound), Hp.
Qed.

Lemma safe_allocate_node rs n : safe rs (allocate_node n) (fun self => [self]).
Proof.
  intros w Hwf Hrs. unfold allocate_node. simpl.
  assert (Hgrow : ∀ r, (r < length (node_store w))%nat →
                       (r < length (node_store w ++ [n]))%nat).
  { intros r Hr. rewrite length_app. simpl. lia. }
  split; [|split].
  - books Hwf.
    + intros h r Hh. apply Hgrow. eauto.
    + eapply Forall_impl; [exact Hbound|]. simpl. intros p Hp m Hm. auto.
    + eapply Forall_impl; [exact Hsock|]. exact Hgrow.
    + eapply Forall_impl; [exact Htim|]. simpl. intros t Ht. auto.
  - exact Hgrow.
  - apply Forall_singleton. unfold valid. simpl. rewrite length_app. simpl. lia.
Qed.

Lemma safe_setTimeout rs r ms : r ∈ rs → safe rs (setTimeout r ms) nothing.
Proof.
  intros Hin w Hwf Hrs. unfold setTimeout. simpl.
  assert (Hr : valid w r) by (eapply (proj1 (Forall_forall _ _) Hrs), Hin).
  split; [|split; [auto|apply Forall_nil_2]].
  books Hwf. apply Forall_app. split; [exact Htim|].
  apply Forall_singleton. exact Hr.
Qed.

Lemma safe_new_WebSocket rs owner url headers :
  owner ∈ rs → safe rs (new_WebSocket owner url headers) nothing.
Proof.
  intros Hin w Hwf Hrs. unfold new_WebSocket. simpl.
  assert (Hr : valid w owner) by (eapply (proj1 (Forall_forall _ _) Hrs), Hin).
  split; [|split; [auto|apply Forall_nil_2]].
  books Hwf. apply Forall_app. split; [exact Hsock|].
  apply Forall_singleton. exact Hr.
Qed.

Lemma safe_call_each rs run ls :
  (∀ l, safe rs (run l) nothing) → safe rs (call_each run ls) nothing.
Proof.
  intros Hrun. induction ls as [|l ls IH]; simpl.
  - apply safe_quiet, quiet_ret.
  - eapply safe_bind; [apply Hrun|]. intros ?. exact IH.
Qed.

Lemma keeps_identity_track x : keeps_identity (with_track x).
Proof. intros p. split; reflexivity. Qed.

Lemma keeps_identity_playing x : keeps_identity (with_playing x).
Proof. intros p. split; reflexivity. Qed.

Lemma keeps_identity_paused x : keeps_identity (with_paused x).
Proof. intros p. split; reflexivity. Qed.

Lemma keeps_identity_state x : keeps_identity (with_state x).
Proof. intros p. split; reflexivity. Qed.

Lemma keeps_identity_timestamp x : keeps_identity (with_timestamp x).
Proof. intros p. split; reflexivity. Qed.

Lemma keeps_identity_detached : keeps_identity detached.
Proof. intros p. split; reflexivity. Qed.

Lemma safe_ret_valid rs (r : ref) : r ∈ rs → safe rs (ret r) (fun a => [a]).
Proof.
  intros Hin w Hwf Hrs. simpl. split; [exact Hwf|]. split; [auto|].
  apply Forall_singleton. eapply (proj1 (Forall_forall _ _) Hrs), Hin.
Qed.

Ltac mem :=
  unfold nothing; simpl;
  repeat first [ apply list_elem_of_here | apply list_elem_of_further ].

Section Books.
Context `{JSON}.

Ltac safe_leaf :=
  lazymatch goal with
  | |- safe _ (ret _) _ => apply safe_quiet, quiet_ret
  | |- safe _ (throw _) _ => apply safe_quiet, quiet_throw
  | |- safe _ (record _) _ => apply safe_quiet, quiet_record
  | |- safe _ (get_prop _ _) _ => apply safe_quiet, quiet_get_prop
  | |- safe _ (this_player _) _ => apply safe_quiet, quiet_this_player
  | |- safe _ (player_emit _ _ _) _ => apply safe_quiet, quiet_player_emit
  | |- safe _ (client_emit _ _) _ => apply safe_quiet, quiet_client_emit
  | |- safe _ (LavaNode.emit _ _ _) _ => apply safe_quiet, quiet_node_emit
  | |- safe _ (LavaNode.send _ _) _ => apply safe_quiet, quiet_send
  | |- safe _ (LavaPlayer.node_send _ _) _ => apply safe_quiet, quiet_node_send
  | |- safe _ Date_now _ => apply safe_still; reflexivity
  | |- safe _ (LavaLink.players_get _) _ => apply safe_still; reflexivity
  | |- safe _ (this_node _) _ => apply safe_this_node
  | |- safe _ (assign_node _ _) _ => apply safe_assign_node
  | |- safe _ (allocate_node _) _ => apply safe_allocate_node
  | |- safe _ (setTimeout _ _) _ => apply safe_setTimeout; mem
  | |- safe _ (new_WebSocket _ _ _) _ => apply safe_new_WebSocket; mem
  | |- safe _ (assign_player _ _) _ =>
      apply safe_assign_player;
      first [ apply keeps_identity_track | apply keeps_identity_playing
            | apply keeps_identity_paused | apply keeps_identity_state
            | apply keeps_identity_timestamp | apply keeps_identity_detached ]
  end.

Ltac safe_go :=
  lazymatch goal with
  | |- safe _ (bind _ _) _ => eapply safe_bind; [safe_go|intros ?; safe_go]
  | |- safe _ (if ?c then _ else _) _ => destruct c; safe_go
  | |- safe _ (match ?o with Some _ => _ | None => _ end) _ => destruct o; safe_go
  | |- safe _ _ _ => safe_leaf
  end.

Lemma safe_stop rs self : safe rs (LavaPlayer.stop self) nothing.
Proof. unfold LavaPlayer.stop. safe_go. Qed.

Lemma safe_end rs self message : safe rs (LavaPlayer.end_ self message) nothing.
Proof. unfold LavaPlayer.end_. safe_go. Qed.

Lemma safe_exception rs self message :
  safe rs (LavaPlayer.exception self message) nothing.
Proof. unfold LavaPlayer.exception. safe_go. Qed.

Lemma safe_stuck rs self message : safe rs (LavaPlayer.stuck self message) nothing.
Proof.
  unfold LavaPlayer.stuck. eapply safe_bind; [apply safe_stop|].
  intros ?. safe_go.
Qed.

Lemma safe_connect_session rs self data :
  safe rs (LavaPlayer.connect self data) nothing.
Proof. unfold LavaPlayer.connect. safe_go. Qed.

Lemma safe_apply_op rs self o : safe rs (apply_op self o) nothing.
Proof.
  destruct o; simpl.
  - apply safe_connect_session.
  - unfold LavaPlayer.play. safe_go.
  - apply safe_stop.
  - unfold LavaPlayer.pause. safe_go.
  - unfold LavaPlayer.volume. safe_go.
  - unfold LavaPlayer.seek. safe_go.
  - apply safe_end.
  - apply safe_exception.
  - apply safe_stuck.
Qed.

Lemma safe_message rs node message : safe rs (LavaLink.message node message) nothing.
Proof.
  unfold LavaLink.message.
  repeat
    lazymatch goal with
    | |- safe _ (bind (LavaPlayer.end_ _ _) _) _ =>
        eapply safe_bind; [apply safe_end|intros ?]
    | |- safe _ (bind (LavaPlayer.exception _ _) _) _ =>
        eapply safe_bind; [apply safe_exception|intros ?]
    | |- safe _ (bind (LavaPlayer.stuck _ _) _) _ =>
        eapply safe_bind; [apply safe_stuck|intros ?]
    | |- safe _ (bind _ _) _ => eapply safe_bind; [safe_leaf|intros ?]
    | |- safe _ (if ?c then _ else _) _ => destruct c
    | |- safe _ (match ?o with Some _ => _ | None => _ end) _ => destruct o
    | |- safe _ _ _ => safe_leaf
    end.
Qed.

Lemma safe_emit_message rs self args :
  safe rs (LavaNode.emit_with_route LavaLink.message self "message" args) nothing.
Proof.
  unfold LavaNode.emit_with_route. eapply safe_bind; [apply safe_this_node|].
  intros n. unfold emit_with. eapply safe_bind; [safe_leaf|]. intros ?.
  destruct (listening "message" (node_listeners n)) as [|l hs].
  - destruct (String.eqb "message" "error"); safe_leaf.
  - eapply safe_bind; [|intros ?; safe_leaf].
    apply safe_call_each. intros l'. destruct l' as [| |ev id]; simpl.
    + safe_go.
    + eapply safe_bind; [apply safe_message|intros ?; safe_leaf].
    + safe_leaf.
Qed.

Lemma safe__connect rs self : safe rs (LavaNode._connect self) nothing.
Proof. unfold LavaNode._connect. safe_go. Qed.

Lemma safe__reconnect rs self : safe rs (LavaNode._reconnect self) nothing.
Proof. unfold LavaNode._reconnect. safe_go. Qed.

Lemma safe_reconnect_callback rs self :
  safe rs (LavaNode.reconnect_callback self) nothing.
Proof.
  unfold LavaNode.reconnect_callback.
  eapply safe_bind; [safe_leaf|intros ?; apply safe__connect].
Qed.

Lemma safe__ready rs self : safe rs (LavaNode._ready self) nothing.
Proof. unfold LavaNode._ready. safe_go. Qed.

Lemma safe__message rs self frame :
  safe rs (LavaNode._message LavaLink.message self frame) nothing.
Proof.
  unfold LavaNode._message. destruct (JSON_parse frame) as [data|error].
  - destruct (negb (truthy data)); [safe_leaf|].
    eapply safe_bind; [safe_go|]. intros ?.
    eapply safe_bind; [apply safe_emit_message|intros ?; safe_leaf].
  - safe_go.
Qed.

Lemma safe__error rs self error : safe rs (LavaNode._error self error) nothing.
Proof.
  unfold LavaNode._error. eapply safe_bind; [safe_leaf|]. intros message.
  destruct message; try safe_leaf.
  destruct (includes "socket hang up" s); [safe_leaf|].
  destruct (includes "ECONNREFUSED" s).
  - eapply safe_bind; [apply safe__reconnect|intros ?; safe_leaf].
  - safe_go.
Qed.

Lemma safe__close rs self code reason :
  safe rs (LavaNode._close self code reason) nothing.
Proof.
  unfold LavaNode._close. eapply safe_bind; [safe_leaf|]. intros ?.
  destruct (negb (code =? 1000)).
  - eapply safe_bind; [apply safe__reconnect|intros ?; safe_leaf].
  - safe_go.
Qed.
End Books.

Lemma safe_at {A} rs (m m' : M A) out w :
  safe rs m' out → m w = m' w → in_order w → Forall (valid w) rs →
  in_order (m w).1 ∧
  (∀ r, valid w r → valid (m w).1 r) ∧
  match (m w).2 with
  | Normal a => Forall (valid (m w).1) (out a)
  | Throw _ => True
  end.
Proof. intros Hsafe -> Hwf Hrs. exact (Hsafe w Hwf Hrs). Qed.

Section Operations.
Context `{JSON}.

Lemma safe_new rs options : safe rs (LavaNode.new options) (fun self => [self]).
Proof.
  unfold LavaNode.new. eapply safe_bind; [apply safe_allocate_node|].
  intros self. eapply safe_bind; [apply safe__connect|].
  intros ?. apply safe_ret_valid. mem.
Qed.

Lemma safe_register rs host node :
  node ∈ rs →
  safe rs (fun w => (with_nodes (<[host := node]> (nodes w)) w, Normal tt)) nothing.
Proof.
  intros Hin w Hwf Hrs. simpl.
  assert (Hr : valid w node) by (eapply (proj1 (Forall_forall _ _) Hrs), Hin).
  split; [|split; [auto|apply Forall_nil_2]].
  books Hwf. intros h r Hh.
  apply lookup_insert_Some in Hh as [[_ <-]|[_ Hh]]; [exact Hr|eauto].
Qed.

Lemma safe_createNode rs options : safe rs (LavaLink.createNode options) nothing.
Proof.
  unfold LavaLink.createNode. eapply safe_bind; [apply safe_new|].
  intros node. unfold LavaNode.on.
  eapply safe_bind; [apply safe_assign_node|]. intros ?.
  eapply safe_bind; [apply safe_assign_node|]. intros ?.
  apply safe_register. mem.
Qed.

Lemma safe_unregister rs host :
  safe rs (fun w => (with_nodes (delete host (nodes w)) w, Normal tt)) nothing.
Proof.
  intros w Hwf Hrs. simpl. split; [|split; [auto|apply Forall_nil_2]].
  books Hwf. intros h r Hh. apply lookup_delete_Some in Hh as [_ Hh]. eauto.
Qed.

Lemma safe_removeNode rs host : safe rs (LavaLink.removeNode host) nothing.
Proof.
  intros w Hwf Hrs. unfold LavaLink.removeNode.
  destruct (nodes w !! host) as [node|].
  - eapply (safe_at rs _ _ nothing w); [|reflexivity|exact Hwf|exact Hrs].
    eapply safe_bind; [apply safe_assign_node|]. intros ?. apply safe_unregister.
  - simpl. split; [exact Hwf|]. split; [auto|apply Forall_nil_2].
Qed.

Lemma safe_spawnPlayer rs data : safe rs (LavaLink.spawnPlayer data) nothing.
Proof.
  intros w Hwf Hrs. unfold LavaLink.spawnPlayer.
  destruct (players w !! so_guild data) as [player|] eqn:Hplayer; simpl.
  - split; [exact Hwf|]. split; [auto|apply Forall_nil_2].
  - split; [|split; [auto|apply Forall_nil_2]].
    pose proof (nodes_ok w Hwf) as Hhost.
    books Hwf.
    + intros g r Hg. apply lookup_insert_Some in Hg as [[<- <-]|[Hne Hg]].
      * eexists. split; [apply list_lookup_middle; reflexivity|reflexivity].
      * destruct (Hreg g r Hg) as (p & Hp & Hgp). exists p.
        split; [apply lookup_app_l_Some; exact Hp|exact Hgp].
    + apply Forall_app. split; [exact Hbound|].
      apply Forall_singleton. simpl. intros n Hn. eapply Hhost, Hn.
Qed.

Lemma safe_shard_send rs shard_id opcode payload :
  safe rs (LavaLink.shard_send shard_id opcode payload) nothing.
Proof.
  apply safe_quiet. intros w. unfold LavaLink.shard_send.
  destruct (connections (client w)) as [shard_ids|].
  - destruct (bool_decide (shard_id ∈ shard_ids)).
    + apply quiet_record.
    + apply (quiet_throw (A := unit)).
  - apply (quiet_throw (A := unit)).
Qed.

Lemma safe_join rs data : safe rs (LavaLink.join data) nothing.
Proof.
  intros w Hwf Hrs. unfold LavaLink.join.
  destruct (players w !! guild_id (d data)) as [player|].
  - simpl. split; [exact Hwf|]. split; [auto|apply Forall_nil_2].
  - eapply (safe_at rs _ _ nothing w); [|reflexivity|exact Hwf|exact Hrs].
    eapply safe_bind.
    + destruct (negb (bool_decide (is_Some (connections (client w)))) &&
                client_ws (client w)).
      * eapply safe_bind; [apply safe_quiet, quiet_record|].
        intros ?. apply safe_spawnPlayer.
      * apply safe_quiet, quiet_ret.
    + intros ?. eapply safe_bind; [|intros ?; apply safe_quiet, quiet_ret].
      destruct (bool_decide (is_Some (connections (client w))) &&
                negb (client_ws (client w))).
      * eapply safe_bind; [apply safe_shard_send|].
        intros ?. apply safe_spawnPlayer.
      * apply safe_quiet, quiet_ret.
Qed.

Lemma safe_leave rs data : safe rs (LavaLink.leave data) nothing.
Proof.
  intros w Hwf Hrs. unfold LavaLink.leave.
  destruct (players w !! guild_id (d data)) as [player|].
  - eapply (safe_at rs _ _ nothing w); [|reflexivity|exact Hwf|exact Hrs].
    eapply safe_bind.
    { destruct (negb (bool_decide (is_Some (connections (client w)))) &&
                client_ws (client w));
        [apply safe_quiet, quiet_record|apply safe_quiet, quiet_ret]. }
    intros ?. eapply safe_bind.
    { destruct (bool_decide (is_Some (connections (client w))) &&
                negb (client_ws (client w)));
        [apply safe_shard_send|apply safe_quiet, quiet_ret]. }
    intros ?. eapply safe_bind.
    { unfold LavaPlayer.removeAllListeners. apply safe_assign_player.
      apply keeps_identity_detached. }
    intros ?. eapply safe_bind; [apply safe_quiet, quiet_throw|].
    intros ?. intros w' Hwf' Hrs'. simpl.
    split; [|split; [auto|apply Forall_nil_2]].
    books Hwf'. intros g r Hg. apply lookup_delete_Some in Hg as [_ Hg]. eauto.
  - simpl. split; [exact Hwf|]. split; [auto|apply Forall_nil_2].
Qed.

Lemma safe_voiceServerUpdate rs host data :
  safe rs (LavaLink.voiceServerUpdate host data) nothing.
Proof.
  intros w Hwf Hrs. unfold LavaLink.voiceServerUpdate.
  eapply (safe_at rs _ _ nothing w); [|reflexivity|exact Hwf|exact Hrs].
  eapply safe_bind.
  - destruct (negb (bool_decide (is_Some (connections (client w)))) &&
              client_ws (client w)); [|apply safe_quiet, quiet_ret].
    eapply safe_bind; [apply safe_quiet, quiet_get_prop|]. intros key.
    destruct (LavaLink.host_get (guilds host) key); [|apply safe_quiet, quiet_ret].
    eapply safe_bind; [apply safe_still; reflexivity|]. intros found.
    destruct found; [apply safe_connect_session|apply safe_quiet, quiet_ret].
  - intros ?.
    destruct (bool_decide (is_Some (connections (client w))) &&
              negb (client_ws (client w))); [|apply safe_quiet, quiet_ret].
    eapply safe_bind; [apply safe_quiet, quiet_get_prop|]. intros key.
    destruct (LavaLink.host_get (voiceSessions host) key) as [id|];
      [|apply safe_quiet, quiet_ret].
    destruct (negb (truthy id)); [apply safe_quiet, quiet_ret|].
    eapply safe_bind; [apply safe_still; reflexivity|]. intros found.
    destruct found; [apply safe_connect_session|apply safe_quiet, quiet_ret].
Qed.

Lemma safe_tick rs ms : safe rs (Runtime.tick ms) nothing.
Proof.
  intros w Hwf Hrs. unfold Runtime.tick. simpl.
  split; [books Hwf|]. split; [auto|apply Forall_nil_2].
Qed.

Lemma safe_fire rs i : safe rs (Runtime.fire i) nothing.
Proof.
  intros w Hwf Hrs. unfold Runtime.fire.
  destruct (timers w !! i) as [t|] eqn:Ht.
  - destruct (due t <=? clock w).
    + assert (Hwf1 : in_order (with_timers (delete i (timers w)) w)).
      { books Hwf. apply Forall_delete. exact Htim. }
      destruct (safe_reconnect_callback rs (target t) _ Hwf1 Hrs)
        as (Hwf2 & Hmono & Hout).
      split; [exact Hwf2|]. split; [exact Hmono|].
      destruct (LavaNode.reconnect_callback (target t) _).2;
        [apply Forall_nil_2|exact I].
    + simpl. split; [exact Hwf|]. split; [auto|apply Forall_nil_2].
  - simpl. split; [exact Hwf|]. split; [auto|apply Forall_nil_2].
Qed.

Lemma safe_deliver rs socket e : safe rs (Runtime.deliver socket e) nothing.
Proof.
  intros w Hwf Hrs. unfold Runtime.deliver.
  destruct (sockets w !! socket) as [owner|].
  - destruct e as [|frame|code reason|error].
    + exact (safe__ready rs owner w Hwf Hrs).
    + eapply (safe_at rs _ _ nothing w); [|reflexivity|exact Hwf|exact Hrs].
      eapply safe_bind; [apply safe__message|intros ?; apply safe_quiet, quiet_ret].
    + eapply (safe_at rs _ _ nothing w); [|reflexivity|exact Hwf|exact Hrs].
      eapply safe_bind; [apply safe__close|intros ?; apply safe_quiet, quiet_ret].
    + eapply (safe_at rs _ _ nothing w); [|reflexivity|exact Hwf|exact Hrs].
      eapply safe_bind; [apply safe__error|intros ?; apply safe_quiet, quiet_ret].
  - simpl. split; [exact Hwf|]. split; [auto|apply Forall_nil_2].
Qed.

Lemma safe_router_op o : safe [] (apply_router_op o) nothing.
Proof.
  destruct o; simpl.
  - apply safe_createNode.
  - apply safe_removeNode.
  - eapply safe_bind; [apply safe_join|intros ?; apply safe_quiet, quiet_ret].
  - apply safe_leave.
  - apply safe_voiceServerUpdate.
  - apply safe_apply_op.
  - apply safe_deliver.
  - apply safe_tick.
  - apply safe_fire.
Qed.

Lemma run_router_in_order ops w : in_order w → in_order (run_router ops w).
Proof.
  revert w. induction ops as [|o ops IH]; intros w Hwf; simpl; [exact Hwf|].
  apply IH. unfold run. apply (safe_router_op o w Hwf). apply Forall_nil_2.
Qed.

(** X23: however the host application and the runtime drive a router
    that starts empty (registering and removing nodes, joining, leaving,
    voice server updates, session commands, socket events, time passing,
    timers running; calls that throw included), its books stay in order:
    every guild in [players] names an existing session that carries this
    guild id, and every node reference held by [nodes], by a session, by
    a socket or by a timer names a node of the store. *)
Theorem router_books_stay_in_order (host_client : Client) (start : Z)
    (ops : list router_op) :
  in_order (run_router ops (mkWorld host_client ∅ ∅ [] [] [] [] start [])).
Proof.
  apply run_router_in_order. constructor; simpl.
  - intros g r Hg. rewrite lookup_empty in Hg. discriminate Hg.
  - intros h r Hh. rewrite lookup_empty in Hh. discriminate Hh.
  - apply Forall_nil_2.
  - apply Forall_nil_2.
  - apply Forall_nil_2.
Qed.
End Operations.

(** ** Examples of the further properties *)

Lemma playing_world_guild : players playing_world !! "g1" = Some 0%nat.
Proof. vm_compute. reflexivity. Qed.

Lemma playing_world_client :
  connections (client playing_world) = Some [0] ∧
  client_ws (client playing_world) = false.
Proof. split; reflexivity. Qed.

Lemma message_parse_failure_witness :
  LavaNode._message LavaLink.message 0%nat "garbage" playing_world =
    (error_reported playing_world 0%nat syntax_error,
     error_outcome playing_world syntax_error).
Proof.
  apply (message_parse_failure LavaLink.message playing_world 0%nat playing_node
           "garbage" syntax_error).
  - exact playing_world_node.
  - reflexivity.
  - reflexivity.
Defined.

Lemma socket_error_cases_witness :
  LavaNode._error 0%nat hang_up playing_world = (playing_world, Normal VUndef) ∧
  LavaNode._error 0%nat refused playing_world =
    (with_timers
       (timers playing_world ++ [reconnect_timer playing_world 0%nat playing_node])
       playing_world,
     Normal VUndef) ∧
  LavaNode._error 0%nat reset playing_world =
    (error_reported playing_world 0%nat reset, error_outcome playing_world reset).
Proof.
  pose proof (socket_error_cases playing_world 0%nat playing_node hang_up
                "socket hang up" playing_world_node eq_refl eq_refl)
    as (Hhang & _ & _).
  pose proof (socket_error_cases playing_world 0%nat playing_node refused
                "connect ECONNREFUSED 127.0.0.1:80" playing_world_node
                eq_refl eq_refl) as (_ & Hrefused & _).
  pose proof (socket_error_cases playing_world 0%nat playing_node reset
                "read ECONNRESET" playing_world_node eq_refl eq_refl)
    as (_ & _ & Hreset).
  split; [apply Hhang; reflexivity|].
  split; [apply Hrefused; reflexivity|].
  apply Hreset; reflexivity.
Defined.

Lemma refused_then_closed_reconnects_twice_witness :
  (LavaNode._error 0%nat refused ;; LavaNode._close 0%nat 1006 (VStr "gone"))
    playing_world =
    (with_timers
       (timers playing_world ++
          [reconnect_timer playing_world 0%nat playing_node;
           reconnect_timer playing_world 0%nat playing_node])
       (with_node_store
          (<[0%nat := with_ready (Some false) playing_node]> (node_store playing_world))
          playing_world),
     Normal VUndef).
Proof.
  refine (proj1 (refused_then_closed_reconnects_twice playing_world 0%nat
                   playing_node refused (VStr "gone")
                   "connect ECONNREFUSED 127.0.0.1:80" 1006 _ _ _ _ _ _)).
  - exact playing_world_node.
  - reflexivity.
  - reflexivity.
  - reflexivity.
  - reflexivity.
  - discriminate.
Defined.

Lemma send_unserialisable_witness :
  LavaNode.send 0%nat circular closed_world =
    (error_reported closed_world 0%nat
       (TypeError "Converting circular structure to JSON"),
     error_outcome closed_world (TypeError "Converting circular structure to JSON")).
Proof.
  apply (send_unserialisable closed_world 0%nat closed_node circular).
  - exact closed_world_node.
  - reflexivity.
  - reflexivity.
Defined.

Lemma commands_only_send_witness :
  LavaPlayer.seek 0%nat (VNum 30000) playing_world =
    (with_trace
       (trace playing_world ++
          [WsSend 0%nat (print (seek_message playing_player (VNum 30000)))])
       playing_world,
     Normal tt).
Proof.
  destruct (commands_only_send playing_world 0%nat playing_player 0%nat
              playing_world_live) as (_ & _ & Hseek).
  apply Hseek. reflexivity.
Defined.

Lemma exception_outcome_witness :
  LavaPlayer.exception 0%nat (VObj [("error", VStr "decode")]) playing_world =
    (with_trace
       (trace playing_world ++
          [Emit (EPlayer 0%nat) "error" [VObj [("error", VStr "decode")]]])
       playing_world,
     match listening "error" (player_listeners playing_player) with
     | [] => Throw (unhandled [VObj [("error", VStr "decode")]])
     | _ => Normal tt
     end).
Proof.
  apply (exception_outcome playing_world 0%nat playing_player).
  exact playing_world_player.
Defined.

Lemma pause_resume_round_trip_witness :
  (LavaPlayer.pause 0%nat (VBool true) ;; LavaPlayer.pause 0%nat (VBool false))
    playing_world =
    (with_trace
       (trace playing_world ++
          [WsSend 0%nat (print (pause_message playing_player (VBool true)));
           WsSend 0%nat (print (pause_message playing_player (VBool false)))])
       playing_world,
     Normal tt).
Proof.
  apply (pause_resume_round_trip playing_world 0%nat playing_player 0%nat).
  - exact playing_world_live.
  - reflexivity.
  - reflexivity.
  - reflexivity.
Defined.

Lemma orphan_world_player :
  player_store orphan_world !! 1%nat = Some (fresh_player playing_world join_g9).
Proof. vm_compute. reflexivity. Qed.

Lemma unbound_session_throws_witness :
  LavaPlayer.stop 1%nat orphan_world = (orphan_world, Throw unbound_error).
Proof.
  refine (proj1 (unbound_session_throws orphan_world 1%nat
                   (fresh_player playing_world join_g9) _ _)).
  - exact orphan_world_player.
  - vm_compute. reflexivity.
Defined.

Lemma createNode_twice_keeps_first_witness :
  (LavaLink.createNode first_options ;; LavaLink.createNode second_options)
    empty_world =
    (created (created empty_world first_options) second_options, Normal tt).
Proof.
  refine (proj1 (createNode_twice_keeps_first first_options second_options
                   empty_world _)).
  reflexivity.
Defined.

Lemma createNode_removeNode_witness :
  ∃ w',
    (LavaLink.createNode first_options ;; LavaLink.removeNode (lo_host first_options))
      empty_world = (w', Normal tt) ∧
    nodes w' = nodes empty_world ∧
    node_store w' =
      node_store empty_world ++
        [with_node_listeners [] (router_node empty_world first_options)] ∧
    ws (router_node empty_world first_options) = Some (length (sockets empty_world)) ∧
    trace w' =
      trace empty_world ++
        [WsOpen (length (sockets empty_world))
           (gateway (router_node empty_world first_options))
           (handshake (router_node empty_world first_options))].
Proof.
  apply (createNode_removeNode first_options empty_world).
  vm_compute. reflexivity.
Defined.

Lemma message_dropped_witness :
  LavaLink.message 0%nat stranger_event playing_world = (playing_world, Normal VUndef).
Proof.
  refine (proj2 (proj2 (message_dropped playing_world 0%nat stranger_event _)) _).
  - reflexivity.
  - vm_compute. reflexivity.
Defined.

Lemma playerUpdate_replaces_state_witness :
  LavaLink.message 0%nat state_update playing_world =
    (with_player_store
       (<[0%nat := with_state (read_prop state_update "state") playing_player]>
          (player_store playing_world)) playing_world,
     Normal VUndef).
Proof.
  apply (playerUpdate_replaces_state playing_world 0%nat 0%nat playing_player
           state_update "g1").
  - reflexivity.
  - reflexivity.
  - exact playing_world_guild.
  - exact playing_world_player.
Defined.

Lemma unknown_event_warns_witness :
  ∃ heard,
    LavaLink.message 0%nat odd_event playing_world =
      (with_trace
         (trace playing_world ++
            [Emit (EPlayer 0%nat) "warn"
               [VStr ("Unexpected event type: " +:+
                      ToString (read_prop odd_event "type"))]]) playing_world,
       Normal (VBool heard)).
Proof.
  apply (unknown_event_warns playing_world 0%nat 0%nat playing_player odd_event "g1").
  - reflexivity.
  - reflexivity.
  - reflexivity.
  - exact playing_world_guild.
  - exact playing_world_player.
Defined.

Lemma track_end_frame_reaches_session_witness :
  Runtime.deliver 0%nat (WsMessage "{end}") playing_world =
    (with_trace
       (trace playing_world ++
          [Emit (ENode 0%nat) "message" [example_end];
           Emit (EPlayer 0%nat) "end" [example_end]])
       (with_player_store
          (<[0%nat := with_track VNull (with_playing false playing_player)]>
             (player_store playing_world)) playing_world),
     Normal tt).
Proof.
  apply (track_end_frame_reaches_session playing_world 0%nat 0%nat 0%nat
           playing_node playing_player "{end}" example_end "g1").
  - vm_compute. reflexivity.
  - exact playing_world_node.
  - reflexivity.
  - reflexivity.
  - reflexivity.
  - reflexivity.
  - reflexivity.
  - reflexivity.
  - exact playing_world_guild.
  - exact playing_world_player.
Defined.

Lemma leave_never_removes_witness :
  LavaLink.leave join_g1 playing_world =
    (left_behind playing_world join_g1 0%nat playing_player,
     Throw LavaLink.destroy_missing) ∧
  LavaLink.leave join_g9 playing_world = (playing_world, Normal tt).
Proof.
  split.
  - refine (proj1 (proj2 (leave_never_removes playing_world join_g1) 0%nat
                     playing_player [0] _ _ _ _ _)).
    + exact playing_world_guild.
    + exact playing_world_player.
    + reflexivity.
    + reflexivity.
    + constructor.
  - apply (proj1 (leave_never_removes playing_world join_g9)).
    vm_compute. reflexivity.
Defined.

Lemma join_without_transport_witness :
  LavaLink.join join_g1 mute_world = (mute_world, Normal None) ∧
  LavaLink.join (mkPacket 5 "a" (VNum 4) (mkVoiceState "g5" "c5")) playing_world =
    (playing_world, Throw missing_shard_error).
Proof.
  split.
  - refine (proj1 (join_without_transport mute_world join_g1 _) _).
    + vm_compute. reflexivity.
    + reflexivity.
  - refine (proj2 (join_without_transport playing_world
                     (mkPacket 5 "a" (VNum 4) (mkVoiceState "g5" "c5")) _)
              [0] _ _ _).
    + vm_compute. reflexivity.
    + reflexivity.
    + reflexivity.
    + intros Hin. apply list_elem_of_In in Hin. simpl in Hin.
      destruct Hin as [Hin|[]]. discriminate Hin.
Defined.

Lemma join_unknown_host_witness :
  LavaLink.join join_g9 playing_world = (orphan_world, Normal None).
Proof.
  refine (proj1 (join_unknown_host playing_world join_g9 [0] _ _ _ _ _)).
  - vm_compute. reflexivity.
  - vm_compute. reflexivity.
  - reflexivity.
  - reflexivity.
  - constructor.
Defined.

Lemma voiceServerUpdate_cases_witness :
  LavaLink.voiceServerUpdate voice_host voice_server_update playing_world =
    (with_trace
       (trace playing_world ++
          [WsSend 0%nat
             (print (voice_update playing_player
                       (mkLavaPlayerConnectData (VStr "session-1")
                          voice_server_update)))])
       playing_world,
     Normal tt).
Proof.
  destruct (voiceServerUpdate_cases voice_host voice_server_update "g1"
              playing_world eq_refl) as [Hsharded _].
  destruct (Hsharded [0] eq_refl eq_refl) as [_ Hsend].
  apply (Hsend (VStr "session-1") 0%nat playing_player 0%nat).
  - vm_compute. reflexivity.
  - reflexivity.
  - exact playing_world_guild.
  - exact playing_world_live.
  - reflexivity.
Defined.
